(** * The resilient RPC adapter of [app/adapters/async_web3_adapter.py]
      and the document scripts

    A shallow embedding of

    - the endpoint registry, [AsyncWeb3Adapter.get_instance] together with
      [__init__] and [_create_client], as a state-and-exception monad over
      the class attributes, the object heap and the log;
    - the retry decorator [retry_web3], as a fuelled loop over an abstract
      world that provides the clock, the sleep and the wrapped coroutine,
      and the two decorated methods;
    - the page files of [docx_split_and_image_extract.py] and the document
      builder of [docx_translate_async.py], over the list of paragraphs.

    Python objects are references into a heap, so that "the same instance"
    is equality of references.  Exceptions are values carrying the method
    resolution order of their class, which is what [except] inspects. *)

From Stdlib Require Import ZArith QArith Qround Lqa Lia Ascii Decimal DecimalString DecimalNat.
From stdpp Require Import base gmap list strings sorting.

(** ** Python exceptions *)

Record PyExc := mkExc {
  exc_mro : list string;   (* type(exc).__mro__, by class name *)
  exc_msg : string         (* str(exc) *)
}.

(** [isinstance(exc, C)] *)
Definition isinstance (e : PyExc) (c : string) : bool :=
  bool_decide (c ∈ exc_mro e).

Definition RuntimeError (msg : string) : PyExc :=
  mkExc ["RuntimeError"; "Exception"; "BaseException"; "object"] msg.

Definition AttributeError (msg : string) : PyExc :=
  mkExc ["AttributeError"; "Exception"; "BaseException"; "object"] msg.

(** The outcome of running a piece of Python: a value or a raised exception. *)
Inductive Outcome (A : Type) : Type :=
| Return (a : A)
| Raise (e : PyExc).
Arguments Return {A} a.
Arguments Raise {A} e.

(** ** The endpoint registry *)

Module Registry.

(** The client object that [_create_client] builds: an [AsyncWeb3] over an
    [AsyncHTTPProvider], as far as the adapter configures it. *)
Record AsyncWeb3 := mkClient {
  provider_url : string;         (* AsyncHTTPProvider(self.rpc_url, ...) *)
  provider_timeout : Z;          (* request_kwargs={"timeout": ...} *)
  poa_layer0 : bool              (* ExtraDataToPOAMiddleware injected at layer 0 *)
}.

(** An [AsyncWeb3Adapter] object; an attribute is [None] until assigned. *)
Record Adapter := mkAdapter {
  rpc_url : option string;
  request_timeout : option Z;
  w3 : option nat                (* reference to the client object *)
}.

Definition blank : Adapter := mkAdapter None None None.

Inductive LogRecord :=
| UsingCached (url : string)     (* "Using cached Web3 adapter instance" *)
| CreatingNew (url : string)     (* "Creating new Web3 adapter instance" *)
| InitClient (url : string).     (* "Initializing AsyncWeb3 client" *)

Record State := mkState {
  _instances : gmap string nat;  (* cls._instances: rpc_url -> adapter reference *)
  _lock : bool;                  (* cls._lock: true while held *)
  heap : list Adapter;           (* adapter objects, a reference is an index *)
  clients : list AsyncWeb3;      (* client objects built so far *)
  ctor_calls : list (string * Z);  (* calls of the AsyncWeb3 constructor so far *)
  log : list LogRecord           (* logger.info lines, oldest first *)
}.

Definition init_state : State := mkState ∅ false [] [] [] [].

(** What a call does: it returns, raises, or waits on the lock for ever. *)
Inductive Res (A : Type) : Type :=
| Done (o : Outcome A)
| Hang.
Arguments Done {A} o.
Arguments Hang {A}.

Definition M (A : Type) : Type := State -> Res A * State.

Definition ret {A} (a : A) : M A := fun st => (Done (Return a), st).
Definition raise {A} (e : PyExc) : M A := fun st => (Done (Raise e), st).
Definition bind {A B} (m : M A) (k : A -> M B) : M B :=
  fun st =>
    match m st with
    | (Done (Return a), st') => k a st'
    | (Done (Raise e), st') => (Done (Raise e), st')
    | (Hang, st') => (Hang, st')
    end.
Definition gets {A} (f : State -> A) : M A := fun st => (Done (Return (f st)), st).
Definition modify (f : State -> State) : M unit := fun st => (Done (Return tt), f st).

Notation "x <- m ;; k" := (bind m (fun x => k))
  (at level 100, m at next level, right associativity).
Notation "m ;;; k" := (bind m (fun _ => k))
  (at level 100, right associativity).

Definition logger_info (r : LogRecord) : M unit :=
  modify (fun st => mkState (_instances st) (_lock st) (heap st) (clients st)
                            (ctor_calls st) (log st ++ [r])).

(** [async with cls._lock: body]: acquire, run the body, release on every
    exit of the body, also when it raises. *)
Definition set_lock (b : bool) (st : State) : State :=
  mkState (_instances st) b (heap st) (clients st) (ctor_calls st) (log st).

Definition with_lock {A} (body : M A) : M A :=
  fun st =>
    if _lock st then (Hang, st)
    else
      match body (set_lock true st) with
      | (r, st') => (r, set_lock false st')
      end.

(** Object allocation, attribute assignment and attribute read. *)
Definition alloc : M nat :=
  fun st => (Done (Return (length (heap st))),
             mkState (_instances st) (_lock st) (heap st ++ [blank]) (clients st)
                     (ctor_calls st) (log st)).

Definition setattr (self : nat) (f : Adapter -> Adapter) : M unit :=
  modify (fun st => mkState (_instances st) (_lock st)
                            (alter f self (heap st)) (clients st)
                            (ctor_calls st) (log st)).

Definition getattr {A} (self : nat) (name : string) (f : Adapter -> option A) : M A :=
  fun st =>
    match heap st !! self ≫= f with
    | Some v => (Done (Return v), st)
    | None => (Done (Raise (AttributeError name)), st)
    end.

Section WithTransport.

(** The [web3] library is outside the repository.  [web3_error n url t] says
    whether the construction of a client for [url] with timeout [t] raises,
    when [n] constructions were started before it. *)
Variable web3_error : nat -> string -> Z -> option PyExc.

(** [AsyncWeb3(AsyncWeb3.AsyncHTTPProvider(url, request_kwargs=...))] followed
    by [w3.middleware_onion.inject(ExtraDataToPOAMiddleware, layer=0)]. *)
Definition new_AsyncWeb3 (url : string) (t : Z) : M nat :=
  fun st =>
    match web3_error (length (ctor_calls st)) url t with
    | Some e =>
        (Done (Raise e),
         mkState (_instances st) (_lock st) (heap st) (clients st)
                 (ctor_calls st ++ [(url, t)]) (log st))
    | None =>
        (Done (Return (length (clients st))),
         mkState (_instances st) (_lock st) (heap st)
                 (clients st ++ [mkClient url t true])
                 (ctor_calls st ++ [(url, t)]) (log st))
    end.

Definition _create_client (self : nat) : M nat :=
  url <- getattr self "rpc_url" rpc_url ;;
  logger_info (InitClient url) ;;;
  url' <- getattr self "rpc_url" rpc_url ;;
  t <- getattr self "request_timeout" request_timeout ;;
  new_AsyncWeb3 url' t.

Definition __init__ (self : nat) (url : string) (t : Z) (_internal : bool) : M unit :=
  if negb _internal then raise (RuntimeError "Use AsyncWeb3Adapter.get_instance()")
  else
    setattr self (fun a => mkAdapter (Some url) (request_timeout a) (w3 a)) ;;;
    setattr self (fun a => mkAdapter (rpc_url a) (Some t) (w3 a)) ;;;
    c <- _create_client self ;;
    setattr self (fun a => mkAdapter (rpc_url a) (request_timeout a) (Some c)).

(** [cls(rpc_url=..., request_timeout=..., _internal=...)]: a new object, then
    [__init__] on it. *)
Definition AsyncWeb3Adapter (url : string) (t : Z) (_internal : bool) : M nat :=
  self <- alloc ;;
  __init__ self url t _internal ;;;
  ret self.

Definition set_instance (url : string) (h : nat) : M unit :=
  modify (fun st => mkState (<[url := h]> (_instances st)) (_lock st) (heap st)
                            (clients st) (ctor_calls st) (log st)).

Definition get_instance (url : string) (t : Z) : M nat :=
  with_lock (
    insts <- gets _instances ;;
    match insts !! url with
    | Some h =>
        logger_info (UsingCached url) ;;;
        ret h
    | None =>
        logger_info (CreatingNew url) ;;;
        instance <- AsyncWeb3Adapter url t true ;;
        set_instance url instance ;;;
        ret instance
    end).

(** A sequence of calls, one after the other, with the result of each. *)
Fixpoint run_calls (calls : list (string * Z)) (st : State) : list (Res nat) * State :=
  match calls with
  | [] => ([], st)
  | (url, t) :: rest =>
      let (r, st1) := get_instance url t st in
      let (rs, st2) := run_calls rest st1 in
      (r :: rs, st2)
  end.

(** The number of client objects built for [url], and the number of calls
    of the client constructor for [url]. *)
Definition clients_for (url : string) (st : State) : nat :=
  length (filter (fun c => provider_url c = url) (clients st)).

Definition ctor_calls_for (url : string) (st : State) : nat :=
  length (filter (fun c => c.1 = url) (ctor_calls st)).

(** The registry is consistent when the lock is free and a client exists for
    a url exactly when the url is registered, and then only one. *)
Definition consistent (st : State) : Prop :=
  _lock st = false ∧
  ∀ u, clients_for u st = match _instances st !! u with Some _ => 1 | None => 0 end.

(** Without failures of the constructor, every call of it built a client. *)
Definition all_built (st : State) : Prop :=
  ctor_calls st = (λ c, (provider_url c, provider_timeout c)) <$> clients st.

End WithTransport.

(** Every registered handle is a fully initialised adapter for its url, and
    its client is the one built for that url with the adapter's timeout. *)
Definition well_formed (st : State) : Prop :=
  ∀ u h, _instances st !! u = Some h ->
    ∃ t c, heap st !! h = Some (mkAdapter (Some u) (Some t) (Some c))
           ∧ clients st !! c = Some (mkClient u t true).

(** The number of calls for [url], among [calls] with results [rs], that
    raised. *)
Fixpoint failures_for (url : string) (calls : list (string * Z)) (rs : list (Res nat))
  : nat :=
  match calls, rs with
  | (u, _) :: calls', Done (Raise _) :: rs' =>
      (if decide (u = url) then 1 else 0) + failures_for url calls' rs'
  | _ :: calls', _ :: rs' => failures_for url calls' rs'
  | _, _ => 0
  end.

(** Three calls, two of them for the same url with different timeouts. *)
Definition demo_calls : list (string * Z) :=
  [("http://a", 10%Z); ("http://b", 5%Z); ("http://a", 7%Z)].

Definition never_fails : nat -> string -> Z -> option PyExc := fun _ _ _ => None.

(** The registry after one successful call for "http://a" with timeout 10. *)
Definition registered_a : State :=
  (run_calls never_fails [("http://a", 10%Z)] init_state).2.

(** Three calls for one url with different timeouts. *)
Definition same_url_calls : list (string * Z) :=
  [("http://a", 10%Z); ("http://a", 5%Z); ("http://a", 7%Z)].

(** The first construction is refused, the later ones are not. *)
Definition fails_once : nat -> string -> Z -> option PyExc :=
  fun n _ _ => match n with 0 => Some (RuntimeError "no event loop") | _ => None end.

End Registry.

(** ** The retry decorator [retry_web3] *)

Module Retry.

(** The classes of the first [except] clause. *)
Definition transient_classes : list string :=
  ["ProviderConnectionError"; "TimeExhausted"; "BlockNotFound"; "TransactionNotFound"].

(** Python tries the classes of an [except (A, B, ...)] tuple with
    [isinstance], so a subclass of a listed class matches too. *)
Definition is_transient (e : PyExc) : bool :=
  existsb (isinstance e) transient_classes.

Definition ProviderConnectionError (msg : string) : PyExc :=
  mkExc ["ProviderConnectionError"; "Web3Exception"; "Exception"; "BaseException"; "object"] msg.
Definition TimeExhausted (msg : string) : PyExc :=
  mkExc ["TimeExhausted"; "Web3Exception"; "Exception"; "BaseException"; "object"] msg.
Definition BlockNotFound (msg : string) : PyExc :=
  mkExc ["BlockNotFound"; "Web3Exception"; "Exception"; "BaseException"; "object"] msg.
Definition TransactionNotFound (msg : string) : PyExc :=
  mkExc ["TransactionNotFound"; "Web3Exception"; "Exception"; "BaseException"; "object"] msg.
Definition ValueError (msg : string) : PyExc :=
  mkExc ["ValueError"; "Exception"; "BaseException"; "object"] msg.
Definition CancelledError (msg : string) : PyExc :=
  mkExc ["CancelledError"; "BaseException"; "object"] msg.

(** The three log calls of the wrapper, with the values they format. *)
Inductive LogRecord :=
| Warning_retrying (url : string) (attempt : nat) (exc : PyExc) (remaining : Q)
    (* "Web3 error on attempt #{attempt}: ... Retrying... time left: {remaining}s" *)
| Error_timeout (url : string) (max_seconds : Z)
    (* "Retry timeout exceeded ({max_seconds}s). Raising error." *)
| Error_non_web3 (url : string) (exc : PyExc).
    (* "Non-Web3 error: ..." *)

(** What the wrapper does, in order. *)
Inductive Event (V : Type) : Type :=
| Call (o : Outcome V)           (* await func(self, *args, **kwargs) *)
| Log (r : LogRecord)
| Sleep (d : Q).                 (* await asyncio.sleep(d) *)
Arguments Call {V} o.
Arguments Log {V} r.
Arguments Sleep {V} d.

Definition is_call {V} (ev : Event V) : bool :=
  match ev with Call _ => true | _ => false end.
Definition is_sleep {V} (ev : Event V) : bool :=
  match ev with Sleep _ => true | _ => false end.
Definition is_warning {V} (ev : Event V) : bool :=
  match ev with Log (Warning_retrying _ _ _ _) => true | _ => false end.

(** The number of attempts, and of sleeps, in a trace. *)
Definition attempts {V} (tr : list (Event V)) : nat := length (List.filter is_call tr).
Definition sleeps {V} (tr : list (Event V)) : nat := length (List.filter is_sleep tr).
Definition warnings {V} (tr : list (Event V)) : nat := length (List.filter is_warning tr).

(** The outcome of the last attempt of a trace. *)
Fixpoint last_call {V} (tr : list (Event V)) : option (Outcome V) :=
  match tr with
  | [] => None
  | ev :: tr' =>
      match last_call tr' with
      | Some o => Some o
      | None => match ev with Call o => Some o | _ => None end
      end
  end.

(** The argument of [asyncio.sleep] in the wrapper. *)
Definition backoff : Q := 1.

Section Wrapper.

(** The world the wrapper runs in: the clock read by [time.time()], the
    effect of [asyncio.sleep(d)], and the decorated coroutine applied to its
    arguments, which returns or raises and moves the world on. *)
Context {W V : Type}.
Variable time_time : W -> Q.
Variable asyncio_sleep : Q -> W -> W.
Variable func : W -> Outcome V * W.

Variable max_seconds : Z.        (* retry_web3(max_seconds=...) *)
Variable self_rpc_url : string.  (* self.rpc_url *)

(** The [while True] loop; [None] when the fuel runs out first. *)
Fixpoint loop (fuel : nat) (start : Q) (attempt : nat) (w : W)
  : option (Outcome V) * list (Event V) * W :=
  match fuel with
  | O => (None, [], w)
  | S fuel' =>
      let (o, w1) := func w in
      match o with
      | Return v => (Some (Return v), [Call o], w1)
      | Raise exc =>
          if is_transient exc then
            let elapsed := (time_time w1 - start)%Q in
            let remaining := (inject_Z max_seconds - elapsed)%Q in
            let warning := Log (Warning_retrying self_rpc_url attempt exc remaining) in
            if Qle_bool remaining 0 then
              (Some (Raise exc),
               [Call o; warning; Log (Error_timeout self_rpc_url max_seconds)], w1)
            else
              let w2 := asyncio_sleep backoff w1 in
              let '(r, tr, w3) := loop fuel' start (S attempt) w2 in
              (r, Call o :: warning :: Sleep backoff :: tr, w3)
          else if isinstance exc "Exception" then
            (Some (Raise exc), [Call o; Log (Error_non_web3 self_rpc_url exc)], w1)
          else
            (Some (Raise exc), [Call o], w1)
      end
  end.

Definition wrapper (fuel : nat) (w : W) : option (Outcome V) * list (Event V) * W :=
  let start := time_time w in
  let attempt := 1%nat in
  loop fuel start attempt w.

(** The world in which attempt [n + 1] starts when the first [n] attempts
    were each followed by the backoff sleep. *)
Fixpoint before_attempt (n : nat) (w : W) : W :=
  match n with
  | O => w
  | S n' => before_attempt n' (asyncio_sleep backoff (func w).2)
  end.

(** The budget left when an attempt has ended in world [w1]. *)
Definition remaining_at (start : Q) (w1 : W) : Q :=
  (inject_Z max_seconds - (time_time w1 - start))%Q.

(** The first [n] attempts from [w] each raise a transient error while
    budget is left. *)
Definition retried_upto (n : nat) (start : Q) (w : W) : Prop :=
  forall j, (j < n)%nat ->
    exists e, (func (before_attempt j w)).1 = Raise e
              /\ is_transient e = true
              /\ (0 < remaining_at start (func (before_attempt j w)).2)%Q.

End Wrapper.

(** [retry_web3(max_seconds)(func)], the decorated coroutine, called on an
    adapter whose [rpc_url] is [self_rpc_url]. *)
Definition retry_web3 {W V : Type} (time_time : W -> Q) (asyncio_sleep : Q -> W -> W)
    (max_seconds : Z) (func : W -> Outcome V * W) (self_rpc_url : string) :=
  wrapper time_time asyncio_sleep func max_seconds self_rpc_url.

(** The attempt numbers of the warning lines of a trace, and the durations
    of its sleeps, in order. *)
Fixpoint warning_attempts {V} (tr : list (Event V)) : list nat :=
  match tr with
  | [] => []
  | Log (Warning_retrying _ k _ _) :: tr' => k :: warning_attempts tr'
  | _ :: tr' => warning_attempts tr'
  end.

Fixpoint sleep_durations {V} (tr : list (Event V)) : list Q :=
  match tr with
  | [] => []
  | Sleep d :: tr' => d :: sleep_durations tr'
  | _ :: tr' => sleep_durations tr'
  end.

(** *** The decorated methods [ensure_connection] and [get_latest_block] *)

(** The [logger.info] lines of the two method bodies. *)
Inductive InfoRecord :=
| ConnectionOK (url : string)              (* "Connection OK" *)
| LatestBlock (url : string) (block : Z).  (* "Latest block = {block}" *)

Section Methods.

(** The node behind [self.w3]: what [await self.w3.is_connected()] and
    [await self.w3.eth.block_number] answer and how they move the world on.
    A method call runs in the world together with the lines logged so far. *)
Context {W : Type}.
Variable time_time : W -> Q.
Variable asyncio_sleep : Q -> W -> W.
Variable is_connected : W -> Outcome bool * W.
Variable eth_block_number : W -> Outcome Z * W.
Variable self_rpc_url : string.

Definition method_time (s : W * list InfoRecord) : Q := time_time s.1.
Definition method_sleep (d : Q) (s : W * list InfoRecord) : W * list InfoRecord :=
  (asyncio_sleep d s.1, s.2).

Definition ensure_connection_body (s : W * list InfoRecord)
  : Outcome bool * (W * list InfoRecord) :=
  match is_connected s.1 with
  | (Return ok, w1) =>
      if negb ok then
        (Raise (ProviderConnectionError "is_connected() returned False"), (w1, s.2))
      else
        (Return true, (w1, s.2 ++ [ConnectionOK self_rpc_url]))
  | (Raise e, w1) => (Raise e, (w1, s.2))
  end.

Definition get_latest_block_body (s : W * list InfoRecord)
  : Outcome Z * (W * list InfoRecord) :=
  match eth_block_number s.1 with
  | (Return block, w1) => (Return block, (w1, s.2 ++ [LatestBlock self_rpc_url block]))
  | (Raise e, w1) => (Raise e, (w1, s.2))
  end.

(** [@retry_web3(max_seconds=30)] on both. *)
Definition ensure_connection :=
  retry_web3 method_time method_sleep 30 ensure_connection_body self_rpc_url.

Definition get_latest_block :=
  retry_web3 method_time method_sleep 30 get_latest_block_body self_rpc_url.

End Methods.

(** A simulated world: attempts take no time and follow a script indexed by
    the number of earlier attempts; a sleep lasts as long as asked. *)
Record Sim := mkSim { clock : Q; calls : nat }.

Definition sim_time (w : Sim) : Q := clock w.
Definition sim_sleep (d : Q) (w : Sim) : Sim := mkSim (clock w + d)%Q (calls w).
Definition sim_func (script : nat -> Outcome Z) (w : Sim) : Outcome Z * Sim :=
  (script (calls w), mkSim (clock w) (S (calls w))).

Definition sim0 : Sim := mkSim 0 0.

Definition node : string := "http://node:8545".

Definition sim_loop (script : nat -> Outcome Z) (max_seconds : Z) :=
  loop sim_time sim_sleep (sim_func script) max_seconds node.

Definition sim_wrapper (script : nat -> Outcome Z) (max_seconds : Z) (fuel : nat) :=
  wrapper sim_time sim_sleep (sim_func script) max_seconds node fuel sim0.

Definition refused : PyExc := ProviderConnectionError "connection refused".

(** Scripts: always "connection refused"; two failures then a value; a
    block-not-found on every attempt but the fourth, which times out. *)
Definition always_refused : nat -> Outcome Z :=
  fun _ => Raise refused.

Definition fails_twice : nat -> Outcome Z :=
  fun n => match n with
           | 0%nat => Raise refused
           | 1%nat => Raise (BlockNotFound "block 17")
           | _ => Return 42%Z
           end.

Definition e1_then_e2 : nat -> Outcome Z :=
  fun n => if (n =? 3)%nat then Raise (TimeExhausted "E2") else Raise (BlockNotFound "E1").

Definition cancelled_first : nat -> Outcome Z :=
  fun n => match n with
           | 0%nat => Raise (CancelledError "cancelled")
           | _ => Return 7%Z
           end.

Definition fatal_first : nat -> Outcome Z :=
  fun n => match n with
           | 0%nat => Raise (ValueError "bad argument")
           | _ => Return 7%Z
           end.

(** The simulated node of the two methods: its answers follow a script, and
    a sleep that a stopped clock would give. *)
Definition sim_call {V : Type} (script : nat -> Outcome V) (w : Sim) : Outcome V * Sim :=
  (script (calls w), mkSim (clock w) (S (calls w))).

Definition frozen_sleep (d : Q) (w : Sim) : Sim := w.

Definition always_down : nat -> Outcome bool := fun _ => Return false.

Definition down_then_up : nat -> Outcome bool :=
  fun n => if (n <? 2)%nat then Return false else Return true.

Definition block_late : nat -> Outcome Z :=
  fun n => match n with
           | 0%nat => Raise (BlockNotFound "latest")
           | _ => Return 1234%Z
           end.

Definition no_block : nat -> Outcome Z := fun _ => Raise (ValueError "no eth module").

End Retry.

(** ** The page files and the translated document

    [split_pdf] of [docx_split_and_image_extract.py] names the page files,
    and [docx_translate_async.py] reads the page numbers back from the names
    and writes the translations into the document.  Of [python-docx] only
    what the script uses is modelled: [doc.paragraphs] is the list of the
    body paragraphs, assigning [paragraph.text] replaces the content of the
    paragraph, [add_paragraph] appends at the end. *)

Module Docx.

Definition IndexError (msg : string) : PyExc :=
  mkExc ["IndexError"; "LookupError"; "Exception"; "BaseException"; "object"] msg.
Definition KeyError (msg : string) : PyExc :=
  mkExc ["KeyError"; "LookupError"; "Exception"; "BaseException"; "object"] msg.
Definition ValueError (msg : string) : PyExc :=
  mkExc ["ValueError"; "Exception"; "BaseException"; "object"] msg.

(** *** File names *)

(** [f"{n:04d}"] for [n >= 0]: the decimal digits, zero-filled to width 4. *)
Fixpoint zeros (k : nat) : string :=
  match k with
  | O => EmptyString
  | S k' => String "0"%char (zeros k')
  end.

Definition format_04d (n : nat) : string :=
  let digits := NilZero.string_of_uint (Nat.to_uint n) in
  zeros (4 - String.length digits) +:+ digits.

(** The stem of [f"page_{i+1:04d}.txt"], for [i] in [range(doc.page_count)]. *)
Definition page_stem (i : nat) : string := "page_" +:+ format_04d (i + 1).

(** [s.split(sep)] for a separator of one character. *)
Fixpoint split_on (sep : ascii) (s : string) : list string :=
  match s with
  | EmptyString => [EmptyString]
  | String c s' =>
      if Ascii.eqb c sep then EmptyString :: split_on sep s'
      else match split_on sep s' with
           | field :: fields => String c field :: fields
           | [] => [String c EmptyString]
           end
  end.

(** Whether [c] occurs in [s]. *)
Fixpoint has_char (c : ascii) (s : string) : bool :=
  match s with
  | EmptyString => false
  | String c' s' => Ascii.eqb c' c || has_char c s'
  end.

(** A decimal digit; a string of decimal digits only. *)
Definition is_digit (c : ascii) : bool :=
  let n := Ascii.nat_of_ascii c in (48 <=? n) && (n <=? 57).

Fixpoint digits_only (s : string) : bool :=
  match s with
  | EmptyString => true
  | String c s' => is_digit c && digits_only s'
  end.

(** The characters [int()] strips from both ends of an ASCII string. *)
Definition is_space (c : ascii) : bool :=
  let n := Ascii.nat_of_ascii c in
  ((9 <=? n) && (n <=? 13)) || ((28 <=? n) && (n <=? 32)).

Fixpoint lstrip (s : string) : string :=
  match s with
  | String c s' => if is_space c then lstrip s' else s
  | EmptyString => EmptyString
  end.

Fixpoint rstrip (s : string) : string :=
  match s with
  | EmptyString => EmptyString
  | String c s' =>
      match rstrip s' with
      | EmptyString => if is_space c then EmptyString else String c EmptyString
      | r => String c r
      end
  end.

(** [int(s)] for an ASCII string without underscores: an optional sign and
    decimal digits between optional white space; [None] is ValueError. *)
Definition int_of_str (s : string) : option Z :=
  match rstrip (lstrip s) with
  | EmptyString => None
  | String c s' =>
      if Ascii.eqb c "-"%char then
        (fun d => (- Z.of_nat (Nat.of_uint d))%Z) <$> NilZero.uint_of_string s'
      else if Ascii.eqb c "+"%char then
        (fun d => Z.of_nat (Nat.of_uint d)) <$> NilZero.uint_of_string s'
      else
        (fun d => Z.of_nat (Nat.of_uint d)) <$> NilZero.uint_of_string (String c s')
  end.

(** [int(txt_file.stem.split("_")[1])] *)
Definition page_number_of_stem (stem : string) : Outcome Z :=
  match split_on "_"%char stem !! 1 with
  | None => Raise (IndexError "list index out of range")
  | Some field =>
      match int_of_str field with
      | Some n => Return n
      | None => Raise (ValueError "invalid literal for int() with base 10")
      end
  end.



(** *** The document *)

(** A paragraph, as far as the script touches it: its text and the pictures
    of its runs. *)
Record Paragraph := mkPara { text : string; pictures : list string }.

(** [paragraph.text = t] drops the content of the paragraph, pictures
    included, for one run with the text. *)
Definition set_text (t : string) (p : Paragraph) : Paragraph := mkPara t [].

(** [para.add_run().add_picture(path)] *)
Definition add_picture (path : string) (p : Paragraph) : Paragraph :=
  mkPara (text p) (pictures p ++ [path]).

(** The position that [l[i]] reads in a Python list: an index below zero
    counts from the end; [None] is IndexError. *)
Definition py_index {A} (l : list A) (i : Z) : option nat :=
  if (0 <=? i)%Z then
    if (i <? Z.of_nat (length l))%Z then Some (Z.to_nat i) else None
  else
    if (- Z.of_nat (length l) <=? i)%Z then Some (Z.to_nat (Z.of_nat (length l) + i))
    else None.

(** [DocxBuilder.insert_translated_text] *)
Definition insert_translated_text (page_number : Z) (translated_text : string)
    (paragraphs : list Paragraph) : Outcome (list Paragraph) :=
  let para_idx := (page_number - 1)%Z in
  if (para_idx <? Z.of_nat (length paragraphs))%Z then
    match py_index paragraphs para_idx with
    | Some k => Return (alter (set_text translated_text) k paragraphs)
    | None => Raise (IndexError "list index out of range")
    end
  else Return (paragraphs ++ [mkPara translated_text []]).

(** An entry of [mapping["images"]]: [filename] is [None] when the key is
    missing, [paragraph_index] when it is missing or null. *)
Record ImageMeta := mkImage { filename : option string; paragraph_index : option Z }.

Section Builder.

(** Outside the repository: whether [add_picture] raises for a path (a
    missing or unreadable file), what [translate_page] returns for a text
    and its page number, and the path of an image file in the images
    directory. *)
Variable add_picture_error : string -> option PyExc.
Variable translate_page : string -> Z -> Outcome string.
Variable image_path : string -> string.  (* self.images_dir / filename *)

(** [DocxBuilder.insert_images], over [self.mapping.get("images", [])]; it
    gives the document as it is when it returns or raises. *)
Fixpoint insert_images (images : list ImageMeta) (paragraphs : list Paragraph)
  : Outcome unit * list Paragraph :=
  match images with
  | [] => (Return tt, paragraphs)
  | img :: rest =>
      match filename img with
      | None => (Raise (KeyError "filename"), paragraphs)
      | Some fname =>
          match paragraph_index img with
          | Some p_idx =>
              if (p_idx <? Z.of_nat (length paragraphs))%Z then
                match py_index paragraphs p_idx with
                | None => (Raise (IndexError "list index out of range"), paragraphs)
                | Some k =>
                    let img_path := image_path fname in
                    match add_picture_error img_path with
                    | Some e => (Raise e, paragraphs)
                    | None => insert_images rest (alter (add_picture img_path) k paragraphs)
                    end
                end
              else insert_images rest paragraphs
          | None => insert_images rest paragraphs
          end
      end
  end.

(** [translate_pages_async], over the sorted page files, each given by its
    stem and its text. *)
Fixpoint translate_pages (txt_files : list (string * string))
    (translated_pages : gmap Z string) : Outcome (gmap Z string) :=
  match txt_files with
  | [] => Return translated_pages
  | (stem, page_text) :: rest =>
      match page_number_of_stem stem with
      | Raise e => Raise e
      | Return page_number =>
          match translate_page page_text page_number with
          | Raise e => Raise e
          | Return translated =>
              translate_pages rest (<[page_number := translated]> translated_pages)
          end
      end
  end.

Definition translate_pages_async (txt_files : list (string * string))
  : Outcome (gmap Z string) :=
  translate_pages txt_files ∅.

(** The builder of [main]: the document in memory and what the last
    [builder.save] wrote to the output file, if anything. *)
Record Builder := mkBuilder { doc : list Paragraph; output_docx : option (list Paragraph) }.

(** [sorted(translated_pages.keys())] *)
Definition sorted_keys (translated_pages : gmap Z string) : list Z :=
  merge_sort Z.le (map_to_list translated_pages).*1.

(** The loop of [main]: insert a page, save, next page. *)
Fixpoint insert_pages (keys : list Z) (translated_pages : gmap Z string) (b : Builder)
  : Outcome unit * Builder :=
  match keys with
  | [] => (Return tt, b)
  | page_number :: rest =>
      match translated_pages !! page_number with
      | None => (Raise (KeyError "page_number"), b)
      | Some translated =>
          match insert_translated_text page_number translated (doc b) with
          | Raise e => (Raise e, b)
          | Return paragraphs =>
              insert_pages rest translated_pages (mkBuilder paragraphs (Some paragraphs))
          end
      end
  end.

(** [main] from the translated pages on. *)
Definition build_docx (translated_pages : gmap Z string) (images : option (list ImageMeta))
    (clean_docx : list Paragraph) : Outcome unit * Builder :=
  match insert_pages (sorted_keys translated_pages) translated_pages
          (mkBuilder clean_docx None) with
  | (Raise e, b) => (Raise e, b)
  | (Return _, b) =>
      match insert_images (default [] images) (doc b) with
      | (Raise e, paragraphs) => (Raise e, mkBuilder paragraphs (output_docx b))
      | (Return _, paragraphs) => (Return tt, mkBuilder paragraphs (Some paragraphs))
      end
  end.

(** [main]: translate the page files, then build the document. *)
Definition main (txt_files : list (string * string)) (images : option (list ImageMeta))
    (clean_docx : list Paragraph) : Outcome unit * option Builder :=
  match translate_pages_async txt_files with
  | Raise e => (Raise e, None)
  | Return translated_pages =>
      let (r, b) := build_docx translated_pages images clean_docx in (r, Some b)
  end.

End Builder.

(** A clean document of three paragraphs, two page texts, a translator that
    marks what it was given, and images of which none has a paragraph to
    go to. *)
Definition demo_doc : list Paragraph :=
  [mkPara "one" ["logo.png"]; mkPara "two" []; mkPara "three" []].


Definition demo_translate (t : string) (page_number : Z) : string := "uk: " +:+ t.

Definition demo_translator (t : string) (page_number : Z) : Outcome string :=
  Return (demo_translate t page_number).

Definition pictures_open : string -> option PyExc := fun _ => None.

Definition demo_path (fname : string) : string := "images/" +:+ fname.

Definition demo_images : list ImageMeta :=
  [mkImage (Some "img_table0_0_0_rId5.png") None;
   mkImage (Some "img_7_0_rId4.png") (Some 7%Z)].

Definition stray_files : list (string * string) :=
  [("page_0001", "Hello"); ("notes", "to do")].

End Docx.

(** * Properties of the registry *)

Section RegistryFacts.

Import Registry.

Variable web3_error : nat -> string -> Z -> option PyExc.

Lemma alter_last (f : Adapter -> Adapter) (l : list Adapter) (a : Adapter) :
  alter f (length l) (l ++ [a]) = l ++ [f a].
Proof.
  induction l as [|x l IH]; simpl; [reflexivity|].
  f_equal. exact IH.
Qed.

Lemma lookup_last (l : list Adapter) (a : Adapter) :
  (l ++ [a]) !! length l = Some a.
Proof.
  induction l as [|x l IH]; simpl; [reflexivity | exact IH].
Qed.

(** The three ways a call of [get_instance] with a free lock can go. *)
Lemma get_instance_cached st url t h :
  _lock st = false ->
  _instances st !! url = Some h ->
  get_instance web3_error url t st =
    (Done (Return h),
     mkState (_instances st) false (heap st) (clients st) (ctor_calls st)
             (log st ++ [UsingCached url])).
Proof.
  intros Hl Hi. destruct st as [insts lk hp cl cc lg]; simpl in *. subst lk.
  unfold get_instance, with_lock, bind, gets; simpl.
  rewrite Hi. reflexivity.
Qed.

Lemma get_instance_built st url t :
  _lock st = false ->
  _instances st !! url = None ->
  web3_error (length (ctor_calls st)) url t = None ->
  get_instance web3_error url t st =
    (Done (Return (length (heap st))),
     mkState (<[url := length (heap st)]> (_instances st)) false
             (heap st ++ [mkAdapter (Some url) (Some t) (Some (length (clients st)))])
             (clients st ++ [mkClient url t true])
             (ctor_calls st ++ [(url, t)])
             (log st ++ [CreatingNew url; InitClient url])).
Proof.
  intros Hl Hi Hw. destruct st as [insts lk hp cl cc lg]; simpl in *. subst lk.
  unfold get_instance, with_lock, bind, gets; simpl.
  rewrite Hi. simpl.
  unfold AsyncWeb3Adapter, __init__, _create_client, new_AsyncWeb3, getattr,
    setattr, logger_info, set_instance, modify, alloc, bind, ret; simpl.
  repeat (progress (rewrite ?alter_last, ?lookup_last, ?Hw; simpl)).
  rewrite <- !app_assoc. reflexivity.
Qed.

Lemma get_instance_failed st url t e :
  _lock st = false ->
  _instances st !! url = None ->
  web3_error (length (ctor_calls st)) url t = Some e ->
  get_instance web3_error url t st =
    (Done (Raise e),
     mkState (_instances st) false
             (heap st ++ [mkAdapter (Some url) (Some t) None])
             (clients st)
             (ctor_calls st ++ [(url, t)])
             (log st ++ [CreatingNew url; InitClient url])).
Proof.
  intros Hl Hi Hw. destruct st as [insts lk hp cl cc lg]; simpl in *. subst lk.
  unfold get_instance, with_lock, bind, gets; simpl.
  rewrite Hi. simpl.
  unfold AsyncWeb3Adapter, __init__, _create_client, new_AsyncWeb3, getattr,
    setattr, logger_info, set_instance, modify, alloc, bind, ret; simpl.
  repeat (progress (rewrite ?alter_last, ?lookup_last, ?Hw; simpl)).
  rewrite <- !app_assoc. reflexivity.
Qed.

Lemma clients_for_snoc insts lk hp cl cc lg c u :
  clients_for u (mkState insts lk hp (cl ++ [c]) cc lg) =
  clients_for u (mkState insts lk hp cl cc lg)
  + (if decide (provider_url c = u) then 1 else 0).
Proof.
  unfold clients_for; simpl. rewrite filter_app, length_app. f_equal.
  rewrite filter_cons, filter_nil. destruct (decide (provider_url c = u)); reflexivity.
Qed.

(** One call keeps the registry consistent, keeps every entry, and a handle
    it returns is the entry of its url afterwards. *)
Lemma get_instance_inv st url t r st' :
  consistent st ->
  get_instance web3_error url t st = (r, st') ->
  consistent st'
  ∧ (∀ u h, _instances st !! u = Some h -> _instances st' !! u = Some h)
  ∧ (∀ h, r = Done (Return h) -> _instances st' !! url = Some h)
  ∧ ((∀ n u x, web3_error n u x = None) -> all_built st ->
       all_built st' ∧ ∃ h, r = Done (Return h)).
Proof.
  intros [Hl Hc] Hrun.
  destruct (_instances st !! url) as [h|] eqn:Hi.
  - rewrite (get_instance_cached st url t h Hl Hi) in Hrun.
    injection Hrun as <- <-. simpl.
    split; [split; auto|]. split; [auto|]. split.
    + intros h' [= ->]. exact Hi.
    + intros _ Hb. split; [exact Hb | eauto].
  - destruct (web3_error (length (ctor_calls st)) url t) as [e|] eqn:Hw.
    + rewrite (get_instance_failed st url t e Hl Hi Hw) in Hrun.
      injection Hrun as <- <-. simpl.
      split; [split; auto|]. split; [auto|]. split.
      * intros h' [=].
      * intros Hnf. rewrite Hnf in Hw. discriminate.
    + rewrite (get_instance_built st url t Hl Hi Hw) in Hrun.
      injection Hrun as <- <-.
      split; [split; [reflexivity|]|]; [|split; [|split]]; simpl.
      * intros u. destruct st as [insts lk hp cl cc lg]; simpl in *.
        rewrite clients_for_snoc; simpl.
        specialize (Hc u). unfold clients_for in *; simpl in *. rewrite Hc.
        destruct (decide (url = u)) as [->|Hne].
        -- rewrite lookup_insert_eq, Hi. reflexivity.
        -- rewrite lookup_insert_ne by exact Hne.
           destruct (insts !! u); lia.
      * intros u h Hu. rewrite lookup_insert_ne; [exact Hu|].
        intros ->. congruence.
      * intros h [= <-]. apply lookup_insert_eq.
      * intros _ Hb. split; [|eauto].
        unfold all_built in *; simpl. rewrite fmap_app. simpl. congruence.
Qed.

(** The same for a sequence of calls. *)
Lemma run_calls_inv calls : ∀ st,
  consistent st ->
  consistent (run_calls web3_error calls st).2
  ∧ (∀ u h, _instances st !! u = Some h ->
       _instances (run_calls web3_error calls st).2 !! u = Some h)
  ∧ (∀ i u t h, calls !! i = Some (u, t) ->
       (run_calls web3_error calls st).1 !! i = Some (Done (Return h)) ->
       _instances (run_calls web3_error calls st).2 !! u = Some h)
  ∧ ((∀ n u x, web3_error n u x = None) -> all_built st ->
       all_built (run_calls web3_error calls st).2
       ∧ ∀ i c, calls !! i = Some c ->
           ∃ h, (run_calls web3_error calls st).1 !! i = Some (Done (Return h))).
Proof.
  induction calls as [|[url t] rest IH]; intros st Hst.
  - simpl. split; [exact Hst|]. split; [auto|]. split.
    + intros i u t h Hcall. discriminate.
    + intros _ Hb. split; [exact Hb|]. intros i c Hcall. discriminate.
  - simpl.
    destruct (get_instance web3_error url t st) as [r st1] eqn:Hget.
    destruct (get_instance_inv st url t r st1 Hst Hget) as (Hc1 & Hkeep & Hret & Hnf).
    destruct (IH st1 Hc1) as (Hc2 & Hkeep2 & Hret2 & Hnf2).
    destruct (run_calls web3_error rest st1) as [rs st2] eqn:Hrest. simpl in *.
    split; [exact Hc2|]. split; [auto|]. split.
    + intros [|i] u x h Hcall Hres; simpl in *.
      * injection Hcall as <- <-. injection Hres as ->. auto.
      * eauto.
    + intros Hno Hb.
      destruct (Hnf Hno Hb) as [Hb1 [h0 ->]].
      destruct (Hnf2 Hno Hb1) as [Hb2 Hall].
      split; [exact Hb2|].
      intros [|i] c Hcall; simpl in *; eauto.
Qed.

Lemma init_consistent : consistent init_state.
Proof. split; [reflexivity|]. intros u. reflexivity. Qed.

Lemma all_built_count st u :
  all_built st -> ctor_calls_for u st = clients_for u st.
Proof.
  unfold all_built, ctor_calls_for, clients_for. intros ->.
  induction (clients st) as [|c cl IH]; [reflexivity|].
  rewrite fmap_cons, !filter_cons; simpl.
  destruct (decide (provider_url c = u)); simpl; auto.
Qed.

(** C1. Singleton: in every sequence of [get_instance] calls from the empty
    registry, two calls with the same rpc_url that return a handle return the
    same one, and exactly one client exists for the url of a call that
    returned; when the client constructor does not fail, every call returns
    and the constructor was called exactly once for its url. *)
Theorem get_instance_singleton (calls : list (string * Z)) :
  let rs := (run_calls web3_error calls init_state).1 in
  let st := (run_calls web3_error calls init_state).2 in
  (∀ i j u ti tj hi hj,
     calls !! i = Some (u, ti) -> calls !! j = Some (u, tj) ->
     rs !! i = Some (Done (Return hi)) -> rs !! j = Some (Done (Return hj)) ->
     hi = hj)
  ∧ (∀ i u t h,
       calls !! i = Some (u, t) -> rs !! i = Some (Done (Return h)) ->
       clients_for u st = 1)
  ∧ ((∀ n u x, web3_error n u x = None) ->
     ∀ i u t, calls !! i = Some (u, t) ->
       (∃ h, rs !! i = Some (Done (Return h)))
       ∧ ctor_calls_for u st = 1 ∧ clients_for u st = 1).
Proof.
  intros rs st.
  destruct (run_calls_inv calls init_state init_consistent)
    as ([_ Hcount] & _ & Hret & Hnf).
  fold rs st in Hcount, Hret, Hnf.
  assert (Hone : ∀ i u t h, calls !! i = Some (u, t) ->
                   rs !! i = Some (Done (Return h)) -> clients_for u st = 1).
  { intros i u t h Hcall Hres. rewrite Hcount, (Hret i u t h Hcall Hres). reflexivity. }
  split; [|split].
  - intros i j u ti tj hi hj Hi Hj Hri Hrj.
    pose proof (Hret i u ti hi Hi Hri) as H1.
    pose proof (Hret j u tj hj Hj Hrj) as H2.
    congruence.
  - exact Hone.
  - intros Hno i u t Hcall.
    destruct (Hnf Hno eq_refl) as [Hb Hall].
    destruct (Hall i (u, t) Hcall) as [h Hres].
    split; [eauto|].
    rewrite (all_built_count st u Hb).
    split; exact (Hone i u t h Hcall Hres).
Qed.

(** C8. First writer wins: a call for a registered rpc_url returns the
    registered handle whatever timeout is passed, and leaves the registry,
    the adapter objects, the clients and the constructor calls as they
    were; it only writes a log line. *)
Theorem get_instance_existing (st : State) (url : string) (t : Z) (h : nat) :
  _lock st = false ->
  _instances st !! url = Some h ->
  ∃ st',
    get_instance web3_error url t st = (Done (Return h), st')
    ∧ _instances st' = _instances st
    ∧ heap st' = heap st
    ∧ clients st' = clients st
    ∧ ctor_calls st' = ctor_calls st
    ∧ _lock st' = false
    ∧ log st' = log st ++ [UsingCached url]
    ∧ ∀ t', get_instance web3_error url t' st = (Done (Return h), st').
Proof.
  intros Hl Hi. eexists. split; [apply (get_instance_cached st url t h Hl Hi)|].
  simpl. repeat split; try reflexivity.
  intros t'. apply (get_instance_cached st url t' h Hl Hi).
Qed.

(** C9. A failed construction is not cached: when the client constructor
    raises for a url that is not registered, [get_instance] raises that
    error, the registry is unchanged and the lock is free again, and the
    next call for the url calls the constructor again, registering the
    handle when the constructor then succeeds. *)
Theorem get_instance_failure_not_cached (st : State) (url : string) (t : Z) (e : PyExc) :
  _lock st = false ->
  _instances st !! url = None ->
  web3_error (length (ctor_calls st)) url t = Some e ->
  ∃ st',
    get_instance web3_error url t st = (Done (Raise e), st')
    ∧ _instances st' = _instances st
    ∧ _lock st' = false
    ∧ clients st' = clients st
    ∧ ctor_calls st' = ctor_calls st ++ [(url, t)]
    ∧ ∀ t2, ∃ r st'',
        get_instance web3_error url t2 st' = (r, st'')
        ∧ ctor_calls st'' = ctor_calls st' ++ [(url, t2)]
        ∧ (web3_error (length (ctor_calls st')) url t2 = None ->
           ∃ h, r = Done (Return h) ∧ _instances st'' !! url = Some h)
        ∧ (∀ e2, web3_error (length (ctor_calls st')) url t2 = Some e2 ->
           r = Done (Raise e2) ∧ _instances st'' = _instances st).
Proof.
  intros Hl Hi Hw. eexists.
  split; [apply (get_instance_failed st url t e Hl Hi Hw)|].
  simpl. do 4 (split; [reflexivity|]).
  intros t2.
  set (st' := mkState (_instances st) false
                (heap st ++ [mkAdapter (Some url) (Some t) None]) (clients st)
                (ctor_calls st ++ [(url, t)])
                (log st ++ [CreatingNew url; InitClient url])).
  change (ctor_calls st ++ [(url, t)]) with (ctor_calls st').
  assert (Hl' : _lock st' = false) by reflexivity.
  assert (Hi' : _instances st' !! url = None) by exact Hi.
  destruct (web3_error (length (ctor_calls st')) url t2) as [e2|] eqn:Hw2.
  - do 2 eexists.
    split; [apply (get_instance_failed st' url t2 e2 Hl' Hi' Hw2)|].
    simpl. split; [reflexivity|]. split; [discriminate|].
    intros e' [= <-]. split; reflexivity.
  - do 2 eexists.
    split; [apply (get_instance_built st' url t2 Hl' Hi' Hw2)|].
    simpl. split; [reflexivity|]. split; [|discriminate].
    intros _. eexists. split; [reflexivity|]. apply lookup_insert_eq.
Qed.

(** C10. The constructor refuses a call without the internal flag: it raises
    RuntimeError and assigns nothing, so [__init__] leaves the state as it
    was and [AsyncWeb3Adapter(...)] hands out no reference, only leaving
    behind the blank object it was called on. *)
Theorem init_requires_internal (self : nat) (url : string) (t : Z) (st : State) :
  __init__ web3_error self url t false st =
    (Done (Raise (RuntimeError "Use AsyncWeb3Adapter.get_instance()")), st)
  ∧ AsyncWeb3Adapter web3_error url t false st =
      (Done (Raise (RuntimeError "Use AsyncWeb3Adapter.get_instance()")),
       mkState (_instances st) (_lock st) (heap st ++ [blank]) (clients st)
               (ctor_calls st) (log st)).
Proof.
  split; reflexivity.
Qed.

End RegistryFacts.

(** * Properties of the retry wrapper *)

Section RetryFacts.

Import Retry.

Context {W V : Type}.
Variable time_time : W -> Q.
Variable asyncio_sleep : Q -> W -> W.
Variable func : W -> Outcome V * W.
Variable max_seconds : Z.
Variable self_rpc_url : string.

Local Abbreviation loop := (Retry.loop time_time asyncio_sleep func max_seconds self_rpc_url).
Local Abbreviation wrapper := (Retry.wrapper time_time asyncio_sleep func max_seconds self_rpc_url).
Local Abbreviation remaining_at := (Retry.remaining_at time_time max_seconds).
Local Abbreviation before_attempt := (Retry.before_attempt asyncio_sleep func).
Local Abbreviation retried_upto := (Retry.retried_upto time_time asyncio_sleep func max_seconds).
Local Abbreviation warning k e r := (Log (V:=V) (Warning_retrying self_rpc_url k e r)).

(** The four exits of one iteration of the loop. *)
Lemma loop_return fuel start k w v w1 :
  func w = (Return v, w1) ->
  loop (S fuel) start k w = (Some (Return v), [Call (Return v)], w1).
Proof. intros Hf. simpl. rewrite Hf. reflexivity. Qed.

Lemma loop_fatal fuel start k w e w1 :
  func w = (Raise e, w1) ->
  is_transient e = false ->
  loop (S fuel) start k w =
    (Some (Raise e),
     Call (Raise e) ::
       (if isinstance e "Exception" then [Log (Error_non_web3 self_rpc_url e)] else []),
     w1).
Proof.
  intros Hf Ht. simpl. rewrite Hf, Ht.
  destruct (isinstance e "Exception"); reflexivity.
Qed.

Lemma loop_exhausted fuel start k w e w1 :
  func w = (Raise e, w1) ->
  is_transient e = true ->
  (remaining_at start w1 <= 0)%Q ->
  loop (S fuel) start k w =
    (Some (Raise e),
     [Call (Raise e); warning k e (remaining_at start w1);
      Log (Error_timeout self_rpc_url max_seconds)],
     w1).
Proof.
  intros Hf Ht Hr. apply Qle_bool_iff in Hr. unfold Retry.remaining_at in Hr.
  simpl. rewrite Hf, Ht, Hr. reflexivity.
Qed.

Lemma loop_retry fuel start k w e w1 :
  func w = (Raise e, w1) ->
  is_transient e = true ->
  (0 < remaining_at start w1)%Q ->
  loop (S fuel) start k w =
    let '(r, tr, w3) := loop fuel start (S k) (asyncio_sleep backoff w1) in
    (r, Call (Raise e) :: warning k e (remaining_at start w1) :: Sleep backoff :: tr, w3).
Proof.
  intros Hf Ht Hr.
  assert (Hb : Qle_bool (remaining_at start w1) 0 = false).
  { destruct (Qle_bool (remaining_at start w1) 0) eqn:E; [|reflexivity].
    apply Qle_bool_iff in E. exfalso. apply (Qlt_not_le _ _ Hr E). }
  unfold Retry.remaining_at in Hb.
  simpl. rewrite Hf, Ht, Hb. reflexivity.
Qed.

(** With fuel left the loop starts with an attempt. *)
Lemma loop_attempts_pos fuel start k w :
  1 <= attempts (loop (S fuel) start k w).1.2.
Proof.
  unfold attempts. simpl. destruct (func w) as [[v|e] w1]; simpl; [lia|].
  destruct (is_transient e).
  - destruct (Qle_bool _ 0); simpl; [lia|].
    destruct (Retry.loop _ _ _ _ _ fuel start (S k) _) as [[r tr] w3]. simpl. lia.
  - destruct (isinstance e "Exception"); simpl; lia.
Qed.

(** More fuel does not change a run that ended. *)
Lemma loop_fuel_mono n : forall m start k w r tr w',
  loop n start k w = (Some r, tr, w') ->
  n <= m ->
  loop m start k w = (Some r, tr, w').
Proof.
  induction n as [|n IH]; intros m start k w r tr w' Hrun Hle.
  - discriminate.
  - destruct m as [|m]; [lia|].
    simpl in *. destruct (func w) as [[v|e] w1]; [exact Hrun|].
    destruct (is_transient e); [|exact Hrun].
    destruct (Qle_bool _ 0); [exact Hrun|].
    destruct (Retry.loop _ _ _ _ _ n start (S k) _) as [[r1 tr1] w3] eqn:E1.
    injection Hrun as -> <- ->.
    rewrite (IH m _ _ _ _ _ _ E1) by lia. reflexivity.
Qed.

(** The error that comes out of the loop is the one the last attempt raised. *)
Lemma loop_raise_last n : forall start k w e tr w',
  loop n start k w = (Some (Raise e), tr, w') ->
  last_call tr = Some (Raise e).
Proof.
  induction n as [|n IH]; intros start k w e tr w' Hrun.
  - discriminate.
  - simpl in Hrun. destruct (func w) as [[v|e0] w1]; [discriminate|].
    destruct (is_transient e0).
    + destruct (Qle_bool _ 0).
      * injection Hrun as <- <- <-. reflexivity.
      * destruct (Retry.loop _ _ _ _ _ n start (S k) _) as [[r1 tr1] w3] eqn:E1.
        injection Hrun as -> <- ->.
        pose proof (IH _ _ _ _ _ _ E1) as Hl. simpl. rewrite Hl. reflexivity.
    + destruct (isinstance e0 "Exception"); injection Hrun as <- <- <-; reflexivity.
Qed.

(** Counting over a trace that is built in two parts. *)
Lemma attempts_app (pre tr : list (Event V)) :
  attempts (pre ++ tr) = attempts pre + attempts tr.
Proof. unfold attempts. rewrite List.filter_app, length_app. reflexivity. Qed.

Lemma last_call_app (pre tr : list (Event V)) o :
  last_call tr = Some o -> last_call (pre ++ tr) = Some o.
Proof.
  intros Hl. induction pre as [|ev pre IH]; simpl; [exact Hl|].
  rewrite IH. reflexivity.
Qed.

(** After such attempts the loop is where it would be had it started at
    attempt [k + n] in the world [before_attempt n w]. *)
Lemma loop_runs n : forall start k w fuel,
  retried_upto n start w ->
  exists pre,
    attempts pre = n /\ sleeps pre = n /\ warnings pre = n
    /\ loop (n + fuel) start k w =
       ((loop fuel start (k + n) (before_attempt n w)).1.1,
        pre ++ (loop fuel start (k + n) (before_attempt n w)).1.2,
        (loop fuel start (k + n) (before_attempt n w)).2).
Proof.
  induction n as [|n IH]; intros start k w fuel Hpre.
  - exists []. repeat split. rewrite Nat.add_0_r. simpl.
    destruct (Retry.loop _ _ _ _ _ fuel start k w) as [[r tr] w']. reflexivity.
  - destruct (Hpre 0 ltac:(lia)) as (e & He & Ht & Hr). simpl in He, Hr.
    destruct (func w) as [o w1] eqn:Hf. simpl in He, Hr. subst o.
    assert (Hpre' : retried_upto n start (asyncio_sleep backoff w1)).
    { intros j Hj. specialize (Hpre (S j) ltac:(lia)). simpl in Hpre.
      rewrite Hf in Hpre. exact Hpre. }
    destruct (IH start (S k) (asyncio_sleep backoff w1) fuel Hpre')
      as (pre & Ha & Hs & Hw & Hrun).
    exists (Call (Raise e) :: warning k e (remaining_at start w1) :: Sleep backoff :: pre).
    split; [unfold attempts in *; simpl; lia|].
    split; [unfold sleeps in *; simpl; lia|].
    split; [unfold warnings in *; simpl; lia|].
    change (S n + fuel) with (S (n + fuel)).
    rewrite (loop_retry _ _ _ _ _ _ Hf Ht Hr), Hrun.
    simpl Retry.before_attempt. rewrite Hf. simpl.
    rewrite Nat.add_succ_r. reflexivity.
Qed.

(** C2. Last-error fidelity: when the first [n] attempts raise transient
    errors within the budget and attempt [n + 1] raises the transient error
    [e] with no budget left, the wrapper raises [e] itself after [n + 1]
    attempts; and whatever error comes out of the wrapper is the one its
    last attempt raised, never one made up by the wrapper. *)
Theorem exhausted_raises_last_error (n : nat) (w : W) (e : PyExc) (w1 : W) :
  retried_upto n (time_time w) w ->
  func (before_attempt n w) = (Raise e, w1) ->
  is_transient e = true ->
  (remaining_at (time_time w) w1 <= 0)%Q ->
  (forall fuel, n < fuel ->
     exists tr,
       wrapper fuel w = (Some (Raise e), tr, w1)
       /\ attempts tr = S n
       /\ last_call tr = Some (Raise e))
  /\ (forall fuel e' tr w',
        wrapper fuel w = (Some (Raise e'), tr, w') ->
        last_call tr = Some (Raise e')).
Proof.
  intros Hpre Hf Ht Hr. split.
  - intros fuel Hfuel.
    destruct (loop_runs n (time_time w) 1 w (fuel - n) Hpre)
      as (pre & Ha & _ & _ & Hrun).
    replace (n + (fuel - n)) with fuel in Hrun by lia.
    destruct (fuel - n) as [|m] eqn:E; [lia|].
    rewrite (loop_exhausted m _ _ _ _ _ Hf Ht Hr) in Hrun. simpl in Hrun.
    eexists. split; [exact Hrun|]. split.
    + rewrite attempts_app, Ha. unfold attempts. simpl. lia.
    + apply last_call_app. reflexivity.
  - intros fuel e' tr w' Hrun. exact (loop_raise_last _ _ _ _ _ _ _ Hrun).
Qed.

(** C3. Fatal short-circuit: when the first attempt raises an error that is
    not transient, the wrapper raises that same error after this one
    attempt, with no sleep and no retry line in the log. *)
Theorem fatal_short_circuit (fuel : nat) (w : W) (e : PyExc) (w1 : W) :
  func w = (Raise e, w1) ->
  is_transient e = false ->
  exists tr,
    wrapper (S fuel) w = (Some (Raise e), tr, w1)
    /\ tr = Call (Raise e) ::
            (if isinstance e "Exception"
             then [Log (Error_non_web3 self_rpc_url e)] else [])
    /\ attempts tr = 1 /\ sleeps tr = 0 /\ warnings tr = 0.
Proof.
  intros Hf Ht. eexists. split; [apply (loop_fatal _ _ _ _ _ _ Hf Ht)|].
  split; [reflexivity|].
  destruct (isinstance e "Exception"); repeat split.
Qed.

(** C4. Classification: an error is transient exactly when it is an instance
    of one of the four listed classes; an error raised by an attempt is
    followed by another attempt exactly when it is transient and budget is
    left; an error that is not transient is raised at once, after the
    attempt that raised it. *)
Theorem retried_iff_transient (fuel : nat) (start : Q) (k : nat) (w : W)
    (e : PyExc) (w1 : W) :
  func w = (Raise e, w1) ->
  (is_transient e = true <->
     isinstance e "ProviderConnectionError" = true
     \/ isinstance e "TimeExhausted" = true
     \/ isinstance e "BlockNotFound" = true
     \/ isinstance e "TransactionNotFound" = true)
  /\ (2 <= attempts (loop (S (S fuel)) start k w).1.2 <->
        is_transient e = true /\ (0 < remaining_at start w1)%Q)
  /\ (is_transient e = false ->
       exists tr,
         loop (S fuel) start k w = (Some (Raise e), tr, w1)
         /\ attempts tr = 1 /\ sleeps tr = 0).
Proof.
  intros Hf. split; [|split].
  - unfold is_transient, transient_classes. simpl.
    rewrite !orb_true_iff. intuition discriminate.
  - destruct (is_transient e) eqn:Ht.
    + destruct (Qlt_le_dec 0 (remaining_at start w1)) as [Hr|Hr].
      * rewrite (loop_retry _ _ _ _ _ _ Hf Ht Hr).
        pose proof (loop_attempts_pos fuel start (S k) (asyncio_sleep backoff w1)) as Hpos.
        destruct (Retry.loop _ _ _ _ _ (S fuel) start (S k) _) as [[r tr] w3].
        simpl in *. split; [auto|]. intros _. unfold attempts in *. simpl. lia.
      * rewrite (loop_exhausted _ _ _ _ _ _ Hf Ht Hr). simpl. split.
        -- unfold attempts. simpl. lia.
        -- intros [_ Hlt]. exfalso. exact (Qlt_not_le _ _ Hlt Hr).
    + rewrite (loop_fatal _ _ _ _ _ _ Hf Ht). simpl. split.
      * destruct (isinstance e "Exception"); unfold attempts; simpl; lia.
      * intros [Hd _]. discriminate.
  - intros Ht. eexists. split; [apply (loop_fatal _ _ _ _ _ _ Hf Ht)|].
    destruct (isinstance e "Exception"); split; reflexivity.
Qed.

(** C6. Success is returned at once: an attempt that returns a value ends the
    loop with that value and nothing after the attempt; and when the first
    [n] attempts raise transient errors within the budget and attempt
    [n + 1] returns [v], the wrapper returns [v] after [n + 1] attempts. *)
Theorem success_returns_immediately :
  (forall fuel start k w v w1,
     func w = (Return v, w1) ->
     loop (S fuel) start k w = (Some (Return v), [Call (Return v)], w1))
  /\ (forall n w v w1,
        retried_upto n (time_time w) w ->
        func (before_attempt n w) = (Return v, w1) ->
        forall fuel, n < fuel ->
          exists tr,
            wrapper fuel w = (Some (Return v), tr, w1)
            /\ attempts tr = S n
            /\ last_call tr = Some (Return v)).
Proof.
  split.
  - intros fuel start k w v w1 Hf. exact (loop_return _ _ _ _ _ _ Hf).
  - intros n w v w1 Hpre Hf fuel Hfuel.
    destruct (loop_runs n (time_time w) 1 w (fuel - n) Hpre)
      as (pre & Ha & _ & _ & Hrun).
    replace (n + (fuel - n)) with fuel in Hrun by lia.
    destruct (fuel - n) as [|m] eqn:E; [lia|].
    rewrite (loop_return m _ _ _ _ _ Hf) in Hrun. simpl in Hrun.
    eexists. split; [exact Hrun|]. split.
    + rewrite attempts_app, Ha. unfold attempts. simpl. lia.
    + apply last_call_app. reflexivity.
Qed.

(** C7, as the code has it. On a transient error the wrapper first logs the
    warning with the attempt number and the remaining budget, and then
    checks the budget: with none left it logs the timeout error and raises
    the error it caught; or else it sleeps for the backoff, increments the
    attempt counter and runs the loop again. *)
Theorem transient_failure_logs_then_checks (fuel : nat) (start : Q) (k : nat)
    (w : W) (e : PyExc) (w1 : W) :
  func w = (Raise e, w1) ->
  is_transient e = true ->
  ((remaining_at start w1 <= 0)%Q ->
     loop (S fuel) start k w =
       (Some (Raise e),
        [Call (Raise e); warning k e (remaining_at start w1);
         Log (Error_timeout self_rpc_url max_seconds)],
        w1))
  /\ ((0 < remaining_at start w1)%Q ->
      loop (S fuel) start k w =
        let '(r, tr, w3) := loop fuel start (S k) (asyncio_sleep backoff w1) in
        (r, Call (Raise e) :: warning k e (remaining_at start w1)
              :: Sleep backoff :: tr, w3)).
Proof.
  intros Hf Ht. split; intros Hr.
  - exact (loop_exhausted _ _ _ _ _ _ Hf Ht Hr).
  - exact (loop_retry _ _ _ _ _ _ Hf Ht Hr).
Qed.

(** The clock when every attempt takes no time and every backoff sleep
    takes [d]. *)
Lemma clock_before_attempt (d : Q) :
  (forall w, time_time (func w).2 == time_time w)%Q ->
  (forall w, time_time (asyncio_sleep backoff w) == time_time w + d)%Q ->
  forall j w,
    (time_time (before_attempt j w) == time_time w + inject_Z (Z.of_nat j) * d)%Q.
Proof.
  intros Hi Hs. induction j as [|j IH]; intros w.
  - simpl. ring.
  - simpl Retry.before_attempt. rewrite IH, Hs, Hi.
    rewrite Nat2Z.inj_succ. unfold Z.succ. rewrite inject_Z_plus. ring.
Qed.

(** The ceiling is the floor or one more. *)
Lemma ceiling_floor (x : Q) :
  (Qfloor x <= Qceiling x <= Qfloor x + 1)%Z.
Proof.
  split.
  - rewrite Zle_Qle. apply Qle_floor_ceiling.
  - assert (H : (Qceiling x - 1 < Qfloor x + 1)%Z).
    { rewrite Zlt_Qlt. eapply Qlt_trans; [apply Qceiling_lt | apply Qlt_floor]. }
    lia.
Qed.

(** C5. Retry bound: when every attempt raises a transient error and takes
    no time, and every backoff sleep takes [d] seconds, the wrapper with a
    budget of [max_seconds >= 0] raises after exactly
    ceiling(max_seconds / d) + 1 attempts, which is floor(max_seconds / d) + 1
    or one more; the error is the one the last attempt raised; with a budget
    of 3 and d = 1 these are 4 attempts. *)
Theorem retry_bound (d : Q) (w : W) :
  (0 <= max_seconds)%Z ->
  (0 < d)%Q ->
  (forall w, exists e, (func w).1 = Raise e /\ is_transient e = true) ->
  (forall w, time_time (func w).2 == time_time w)%Q ->
  (forall w, time_time (asyncio_sleep backoff w) == time_time w + d)%Q ->
  exists n e tr w',
    (forall fuel, n <= fuel -> wrapper fuel w = (Some (Raise e), tr, w'))
    /\ attempts tr = n
    /\ sleeps tr = n - 1
    /\ last_call tr = Some (Raise e)
    /\ is_transient e = true
    /\ Z.of_nat n = (Qceiling (inject_Z max_seconds / d) + 1)%Z
    /\ (Qfloor (inject_Z max_seconds / d) + 1 <= Z.of_nat n
        <= Qfloor (inject_Z max_seconds / d) + 2)%Z
    /\ (max_seconds = 3%Z -> (d == 1)%Q -> n = 4).
Proof.
  intros HB Hd Hfail Hinst Hsleep.
  set (x := (inject_Z max_seconds / d)%Q).
  assert (Hxd : (x * d == inject_Z max_seconds)%Q).
  { unfold x. field. intros H0. rewrite H0 in Hd. exact (Qlt_irrefl _ Hd). }
  assert (Hx0 : (0 <= x)%Q).
  { unfold x. apply Qle_shift_div_l; [exact Hd|].
    rewrite Qmult_0_l. change 0%Q with (inject_Z 0). rewrite <- Zle_Qle. exact HB. }
  pose proof (Qle_ceiling x) as Hc1.
  pose proof (Qceiling_lt x) as Hc2.
  assert (Hc0 : (0 <= Qceiling x)%Z).
  { rewrite Zle_Qle. eapply Qle_trans; [exact Hx0 | exact Hc1]. }
  set (N := Z.to_nat (Qceiling x)).
  assert (HN : Z.of_nat N = Qceiling x) by (unfold N; lia).
  pose proof (clock_before_attempt d Hinst Hsleep) as Hclock.
  assert (Hrem : forall j,
            (remaining_at (time_time w) (func (before_attempt j w)).2
             == inject_Z max_seconds - inject_Z (Z.of_nat j) * d)%Q).
  { intros j. unfold Retry.remaining_at. rewrite Hinst, Hclock. ring. }
  assert (Hpre : retried_upto N (time_time w) w).
  { intros j Hj. destruct (Hfail (before_attempt j w)) as (e & He & Ht).
    exists e. split; [exact He|]. split; [exact Ht|].
    rewrite Hrem.
    assert (Hj' : (inject_Z (Z.of_nat j) <= inject_Z (Qceiling x - 1))%Q).
    { rewrite <- Zle_Qle. lia. }
    assert (Hjx : (inject_Z (Z.of_nat j) < x)%Q).
    { eapply Qle_lt_trans; [exact Hj' | exact Hc2]. }
    assert (Hjd : (inject_Z (Z.of_nat j) * d < x * d)%Q).
    { apply Qmult_lt_r; assumption. }
    rewrite Hxd in Hjd. lra. }
  destruct (Hfail (before_attempt N w)) as (e & He & Ht).
  destruct (func (before_attempt N w)) as [o w1] eqn:Hf. simpl in He. subst o.
  assert (Hex : (remaining_at (time_time w) w1 <= 0)%Q).
  { pose proof (Hrem N) as HrN. rewrite Hf in HrN. simpl in HrN. rewrite HrN, HN.
    assert (Hcd : (x * d <= inject_Z (Qceiling x) * d)%Q).
    { apply Qmult_le_r; assumption. }
    rewrite Hxd in Hcd. lra. }
  destruct (loop_runs N (time_time w) 1 w 1 Hpre) as (pre & Ha & Hs & _ & Hrun).
  rewrite (loop_exhausted 0 _ _ _ _ _ Hf Ht Hex) in Hrun. simpl in Hrun.
  exists (S N), e. do 2 eexists.
  split.
  { intros fuel Hfuel. apply (loop_fuel_mono (N + 1)); [exact Hrun | lia]. }
  split; [rewrite attempts_app, Ha; unfold attempts; simpl; lia|].
  split.
  { unfold sleeps in *. rewrite List.filter_app, length_app, Hs. simpl. lia. }
  split; [apply last_call_app; reflexivity|].
  split; [exact Ht|].
  pose proof (ceiling_floor x) as Hcf.
  split; [lia|]. split; [lia|].
  intros HB3 Hd1.
  assert (Hx3 : Qceiling x = 3%Z).
  { rewrite <- (Qceiling_Z 3). apply Qceiling_comp.
    unfold x. rewrite HB3, Hd1. reflexivity. }
  lia.
Qed.

End RetryFacts.

Section RetryWitnesses.

Import Retry.

Lemma e1_then_e2_retried : retried_upto sim_time sim_sleep (sim_func e1_then_e2) 3 3 0 sim0.
Proof.
  intros j Hj. destruct j as [|[|[|j]]]; [| | |lia];
    (eexists; split; [reflexivity|]; split; reflexivity).
Defined.

Lemma fails_twice_retried : retried_upto sim_time sim_sleep (sim_func fails_twice) 30 2 0 sim0.
Proof.
  intros j Hj. destruct j as [|[|j]]; [| |lia];
    (eexists; split; [reflexivity|]; split; reflexivity).
Defined.

Lemma e2_exhausted : (remaining_at sim_time 3 0 (mkSim 3 4) <= 0)%Q.
Proof. apply Qle_bool_iff. reflexivity. Defined.

Lemma refused_exhausted : (remaining_at sim_time 0 0 (mkSim 0 1) <= 0)%Q.
Proof. apply Qle_bool_iff. reflexivity. Defined.

Lemma exhausted_raises_last_error_witness :
  (forall fuel, 3 < fuel ->
     exists tr,
       sim_wrapper e1_then_e2 3 fuel = (Some (Raise (TimeExhausted "E2")), tr, mkSim 3 4)
       /\ attempts tr = 4
       /\ last_call tr = Some (Raise (TimeExhausted "E2")))
  /\ (forall fuel e' tr w',
        sim_wrapper e1_then_e2 3 fuel = (Some (Raise e'), tr, w') ->
        last_call tr = Some (Raise e')).
Proof.
  exact (exhausted_raises_last_error sim_time sim_sleep (sim_func e1_then_e2) 3 node
           3 sim0 (TimeExhausted "E2") (mkSim 3 4)
           e1_then_e2_retried eq_refl eq_refl e2_exhausted).
Defined.

Lemma fatal_short_circuit_witness :
  exists tr,
    sim_wrapper fatal_first 30 1 = (Some (Raise (ValueError "bad argument")), tr, mkSim 0 1)
    /\ tr = [Call (Raise (ValueError "bad argument"));
             Log (Error_non_web3 node (ValueError "bad argument"))]
    /\ attempts tr = 1 /\ sleeps tr = 0 /\ warnings tr = 0.
Proof.
  exact (fatal_short_circuit sim_time sim_sleep (sim_func fatal_first) 30 node
           0 sim0 (ValueError "bad argument") (mkSim 0 1) eq_refl eq_refl).
Defined.

Lemma retried_iff_transient_witness :
  (is_transient refused = true <->
     isinstance refused "ProviderConnectionError" = true
     \/ isinstance refused "TimeExhausted" = true
     \/ isinstance refused "BlockNotFound" = true
     \/ isinstance refused "TransactionNotFound" = true)
  /\ (2 <= attempts (sim_loop always_refused 3 2 0 1 sim0).1.2 <->
        is_transient refused = true
        /\ (0 < remaining_at sim_time 3 0 (mkSim 0 1))%Q)
  /\ (is_transient refused = false ->
       exists tr,
         sim_loop always_refused 3 1 0 1 sim0 = (Some (Raise refused), tr, mkSim 0 1)
         /\ attempts tr = 1 /\ sleeps tr = 0).
Proof.
  exact (retried_iff_transient sim_time sim_sleep (sim_func always_refused) 3 node
           0 0 1 sim0 refused (mkSim 0 1) eq_refl).
Defined.

Lemma success_returns_immediately_witness :
  sim_loop fails_twice 30 1 0 3 (mkSim 2 2) = (Some (Return 42%Z), [Call (Return 42%Z)], mkSim 2 3)
  /\ (forall fuel, 2 < fuel ->
        exists tr,
          sim_wrapper fails_twice 30 fuel = (Some (Return 42%Z), tr, mkSim 2 3)
          /\ attempts tr = 3
          /\ last_call tr = Some (Return 42%Z)).
Proof.
  destruct (success_returns_immediately sim_time sim_sleep (sim_func fails_twice) 30 node)
    as [Hnow Hlater].
  split.
  - exact (Hnow 0 0%Q 3 (mkSim 2 2) 42%Z (mkSim 2 3) eq_refl).
  - exact (Hlater 2 sim0 42%Z (mkSim 2 3) fails_twice_retried eq_refl).
Defined.

Lemma retry_bound_witness :
  exists n e tr w',
    (forall fuel, n <= fuel -> sim_wrapper always_refused 3 fuel = (Some (Raise e), tr, w'))
    /\ attempts tr = n
    /\ sleeps tr = n - 1
    /\ last_call tr = Some (Raise e)
    /\ is_transient e = true
    /\ Z.of_nat n = (Qceiling (inject_Z 3 / 1) + 1)%Z
    /\ (Qfloor (inject_Z 3 / 1) + 1 <= Z.of_nat n <= Qfloor (inject_Z 3 / 1) + 2)%Z
    /\ (3%Z = 3%Z -> (1 == 1)%Q -> n = 4).
Proof.
  exact (retry_bound sim_time sim_sleep (sim_func always_refused) 3 node 1 sim0
           ltac:(discriminate) eq_refl
           (fun w => ex_intro _ refused (conj eq_refl eq_refl))
           (fun w => Qeq_refl _)
           (fun w => Qeq_refl _)).
Defined.

Lemma transient_failure_logs_then_checks_witness :
  sim_loop always_refused 0 1 0 1 sim0 =
    (Some (Raise refused),
     [Call (Raise refused); Log (Warning_retrying node 1 refused 0);
      Log (Error_timeout node 0)],
     mkSim 0 1)
  /\ sim_loop always_refused 3 1 0 1 sim0 =
       (None,
        [Call (Raise refused); Log (Warning_retrying node 1 refused 3); Sleep 1],
        mkSim 1 1).
Proof.
  split.
  - exact (proj1 (transient_failure_logs_then_checks sim_time sim_sleep
                    (sim_func always_refused) 0 node 0 0 1 sim0 refused (mkSim 0 1)
                    eq_refl eq_refl)
             refused_exhausted).
  - exact (proj2 (transient_failure_logs_then_checks sim_time sim_sleep
                    (sim_func always_refused) 3 node 0 0 1 sim0 refused (mkSim 0 1)
                    eq_refl eq_refl)
             eq_refl).
Defined.

(** An exception that is no [Exception], such as a cancellation, passes both
    [except] clauses: it is raised after the one attempt and nothing is
    logged. *)
Example cancelled_passes_through :
  retry_web3 sim_time sim_sleep 30 (sim_func cancelled_first) node 5 sim0 =
    (Some (Raise (CancelledError "cancelled")), [Call (Raise (CancelledError "cancelled"))], mkSim 0 1).
Proof. reflexivity. Qed.

(** C7, as stated, fails: with a budget of 0 the first failure exhausts the
    budget, and the warning with the retry text is logged all the same,
    before the timeout error. *)
Lemma warning_logged_on_exhausting_failure :
  (remaining_at sim_time 0 0 (mkSim 0 1) <= 0)%Q
  /\ sim_wrapper always_refused 0 1 =
       (Some (Raise refused),
        [Call (Raise refused); Log (Warning_retrying node 1 refused 0);
         Log (Error_timeout node 0)],
        mkSim 0 1)
  /\ warnings (sim_wrapper always_refused 0 1).1.2 <> 0.
Proof.
  split; [exact refused_exhausted|].
  split; [reflexivity|]. vm_compute. discriminate.
Qed.

End RetryWitnesses.

Lemma get_instance_singleton_witness :
  0 = 0
  ∧ Registry.clients_for "http://a"
      (Registry.run_calls Registry.never_fails Registry.demo_calls
         Registry.init_state).2 = 1
  ∧ ((∃ h, (Registry.run_calls Registry.never_fails Registry.demo_calls
              Registry.init_state).1 !! 2 = Some (Registry.Done (Return h)))
     ∧ Registry.ctor_calls_for "http://a"
         (Registry.run_calls Registry.never_fails Registry.demo_calls
            Registry.init_state).2 = 1
     ∧ Registry.clients_for "http://a"
         (Registry.run_calls Registry.never_fails Registry.demo_calls
            Registry.init_state).2 = 1).
Proof.
  destruct (get_instance_singleton Registry.never_fails Registry.demo_calls)
    as (Hsame & Hone & Hall).
  split; [|split].
  - exact (Hsame 0 2 "http://a" 10%Z 7%Z 0 0 eq_refl eq_refl eq_refl eq_refl).
  - exact (Hone 2 "http://a" 7%Z 0 eq_refl eq_refl).
  - exact (Hall (fun _ _ _ => eq_refl) 2 "http://a" 7%Z eq_refl).
Defined.

Lemma get_instance_existing_witness :
  ∃ st',
    Registry.get_instance Registry.never_fails "http://a" 99 Registry.registered_a
      = (Registry.Done (Return 0), st')
    ∧ Registry._instances st' = Registry._instances Registry.registered_a
    ∧ Registry.heap st' = Registry.heap Registry.registered_a
    ∧ Registry.clients st' = Registry.clients Registry.registered_a
    ∧ Registry.ctor_calls st' = Registry.ctor_calls Registry.registered_a
    ∧ Registry._lock st' = false
    ∧ Registry.log st' =
        Registry.log Registry.registered_a ++ [Registry.UsingCached "http://a"]
    ∧ ∀ t', Registry.get_instance Registry.never_fails "http://a" t'
              Registry.registered_a = (Registry.Done (Return 0), st').
Proof.
  exact (get_instance_existing Registry.never_fails Registry.registered_a
           "http://a" 99 0 eq_refl eq_refl).
Defined.

Lemma get_instance_failure_not_cached_witness :
  ∃ st',
    Registry.get_instance Registry.fails_once "http://a" 10 Registry.init_state
      = (Registry.Done (Raise (RuntimeError "no event loop")), st')
    ∧ Registry._instances st' = Registry._instances Registry.init_state
    ∧ Registry._lock st' = false
    ∧ Registry.clients st' = Registry.clients Registry.init_state
    ∧ Registry.ctor_calls st' =
        Registry.ctor_calls Registry.init_state ++ [("http://a", 10%Z)]
    ∧ ∀ t2, ∃ r st'',
        Registry.get_instance Registry.fails_once "http://a" t2 st' = (r, st'')
        ∧ Registry.ctor_calls st'' = Registry.ctor_calls st' ++ [("http://a", t2)]
        ∧ (Registry.fails_once (length (Registry.ctor_calls st')) "http://a" t2 = None ->
           ∃ h, r = Registry.Done (Return h)
                ∧ Registry._instances st'' !! "http://a" = Some h)
        ∧ (∀ e2, Registry.fails_once (length (Registry.ctor_calls st')) "http://a" t2
                   = Some e2 ->
           r = Registry.Done (Raise e2)
           ∧ Registry._instances st'' = Registry._instances Registry.init_state).
Proof.
  exact (get_instance_failure_not_cached Registry.fails_once Registry.init_state
           "http://a" 10 (RuntimeError "no event loop") eq_refl eq_refl eq_refl).
Defined.

(** * Further properties of the retry wrapper *)

Section RetryRuns.

Import Retry.

Context {W V : Type}.
Variable time_time : W -> Q.
Variable asyncio_sleep : Q -> W -> W.
Variable func : W -> Outcome V * W.
Variable max_seconds : Z.
Variable self_rpc_url : string.

Local Abbreviation loop := (Retry.loop time_time asyncio_sleep func max_seconds self_rpc_url).
Local Abbreviation wrapper := (Retry.wrapper time_time asyncio_sleep func max_seconds self_rpc_url).
Local Abbreviation remaining_at := (Retry.remaining_at time_time max_seconds).
Local Abbreviation before_attempt := (Retry.before_attempt asyncio_sleep func).
Local Abbreviation retried_upto := (Retry.retried_upto time_time asyncio_sleep func max_seconds).

Lemma Qle_bool_false (x y : Q) : Qle_bool x y = false -> (y < x)%Q.
Proof.
  intros Hb. apply Qnot_le_lt. intros Hle.
  apply Qle_bool_iff in Hle. congruence.
Qed.

(** Attempt [n + 2] starts after the backoff sleep that follows attempt
    [n + 1]. *)
Lemma before_attempt_S n : forall w,
  before_attempt (S n) w = asyncio_sleep backoff (func (before_attempt n w)).2.
Proof.
  induction n as [|n IH]; intros w; [reflexivity|].
  change (before_attempt (S (S n)) w)
    with (before_attempt (S n) (asyncio_sleep backoff (func w).2)).
  rewrite IH. reflexivity.
Qed.

(** A run of the loop that ended made some [n + 1] attempts: the first [n]
    raised transient errors with budget left, and the last one gave the
    result. *)
Lemma loop_last_attempt fuel : forall start k w r tr w',
  loop fuel start k w = (Some r, tr, w') ->
  exists n,
    attempts tr = S n /\ sleeps tr = n /\ last_call tr = Some r
    /\ retried_upto n start w
    /\ func (before_attempt n w) = (r, w').
Proof.
  induction fuel as [|fuel IH]; intros start k w r tr w' Hrun; [discriminate|].
  simpl in Hrun. destruct (func w) as [[v|e] w1] eqn:Hf.
  - injection Hrun as <- <- <-. exists 0.
    repeat split; [intros j Hj; lia | exact Hf].
  - destruct (is_transient e) eqn:Ht.
    + destruct (Qle_bool _ 0) eqn:Hb.
      * injection Hrun as <- <- <-. exists 0.
        repeat split; [intros j Hj; lia | exact Hf].
      * destruct (Retry.loop _ _ _ _ _ fuel start (S k) _) as [[r1 tr1] w3] eqn:E1.
        injection Hrun as -> <- ->.
        destruct (IH _ _ _ _ _ _ E1) as (n & Ha & Hs & Hl & Hpre & Hlast).
        exists (S n).
        split; [unfold attempts in *; simpl; lia|].
        split; [unfold sleeps in *; simpl; lia|].
        split; [simpl; rewrite Hl; reflexivity|].
        split.
        -- intros [|j] Hj; simpl; rewrite Hf; simpl.
           ++ exists e. repeat split; [exact Ht|]. apply Qle_bool_false. exact Hb.
           ++ apply Hpre. lia.
        -- simpl. rewrite Hf. exact Hlast.
    + exists 0.
      destruct (isinstance e "Exception"); injection Hrun as <- <- <-;
        (repeat split; [intros j Hj; lia | exact Hf]).
Qed.

(** X1. Whatever a finished call of the wrapper gives, value or error, is
    what its last attempt gave, in the world that attempt left; every
    earlier attempt raised a transient error while budget was left, and
    there is one backoff sleep for each of them. *)
Theorem wrapper_result_is_last_attempt (fuel : nat) (w : W) (r : Outcome V)
    (tr : list (Event V)) (w' : W) :
  wrapper fuel w = (Some r, tr, w') ->
  exists n,
    attempts tr = S n
    /\ sleeps tr = n
    /\ last_call tr = Some r
    /\ func (before_attempt n w) = (r, w')
    /\ forall j, j < n ->
         exists e, (func (before_attempt j w)).1 = Raise e
                   /\ is_transient e = true
                   /\ (0 < remaining_at (time_time w) (func (before_attempt j w)).2)%Q.
Proof.
  intros Hrun.
  destruct (loop_last_attempt _ _ _ _ _ _ _ Hrun) as (n & Ha & Hs & Hl & Hpre & Hlast).
  exists n. repeat split; assumption.
Qed.

(** X2. The log and the sleeps of a run, finished or not: the warning lines
    number the attempts 1, 2, 3, ... without a gap, and every sleep is asked
    for the same one second. *)
Theorem wrapper_trace_shape (fuel : nat) (w : W) :
  warning_attempts (wrapper fuel w).1.2 = seq 1 (warnings (wrapper fuel w).1.2)
  /\ sleep_durations (wrapper fuel w).1.2 = repeat 1%Q (sleeps (wrapper fuel w).1.2).
Proof.
  unfold Retry.wrapper. generalize (time_time w) as start. generalize 1 as k.
  revert w. induction fuel as [|fuel IH]; intros w k start; [split; reflexivity|].
  simpl. destruct (func w) as [[v|e] w1]; [split; reflexivity|].
  destruct (is_transient e).
  - destruct (Qle_bool _ 0); [split; reflexivity|].
    specialize (IH (asyncio_sleep backoff w1) (S k) start).
    destruct (Retry.loop _ _ _ _ _ fuel start (S k) _) as [[r1 tr1] w3].
    simpl in *. destruct IH as [IHw IHs].
    unfold warnings, sleeps in *. simpl. rewrite IHw, IHs. split; reflexivity.
  - destruct (isinstance e "Exception"); split; reflexivity.
Qed.

(** X3. A budget of zero or less switches retrying off: when the clock does
    not run backwards during the first attempt, that attempt is the only
    one, and its value or error is the result. *)
Theorem no_budget_no_retry (fuel : nat) (w : W) :
  (max_seconds <= 0)%Z ->
  (time_time w <= time_time (func w).2)%Q ->
  exists tr,
    wrapper (S fuel) w = (Some (func w).1, tr, (func w).2)
    /\ attempts tr = 1 /\ sleeps tr = 0.
Proof.
  intros HB Hclock. unfold Retry.wrapper. simpl.
  destruct (func w) as [[v|e] w1]; simpl in *.
  - eexists. repeat split.
  - destruct (is_transient e).
    + assert (Hr : Qle_bool (inject_Z max_seconds - (time_time w1 - time_time w)) 0 = true).
      { apply Qle_bool_iff.
        assert (HBq : (inject_Z max_seconds <= 0)%Q).
        { change 0%Q with (inject_Z 0). rewrite <- Zle_Qle. exact HB. }
        lra. }
      rewrite Hr. eexists. repeat split.
    + destruct (isinstance e "Exception"); eexists; repeat split.
Qed.

(** X4. No attempt starts late: when a backoff sleep lasts at most [s]
    seconds, every attempt of a finished run but the first starts less than
    [max_seconds + s] seconds after the call started. *)
Theorem attempts_start_within_budget (s : Q) (fuel : nat) (w : W) (r : Outcome V)
    (tr : list (Event V)) (w' : W) :
  (forall w0, time_time (asyncio_sleep backoff w0) <= time_time w0 + s)%Q ->
  wrapper fuel w = (Some r, tr, w') ->
  forall j, 0 < j < attempts tr ->
    (time_time (before_attempt j w) - time_time w < inject_Z max_seconds + s)%Q.
Proof.
  intros Hsleep Hrun j [Hj0 Hj].
  destruct (loop_last_attempt _ _ _ _ _ _ _ Hrun) as (n & Ha & _ & _ & Hpre & _).
  destruct j as [|i]; [lia|].
  destruct (Hpre i ltac:(lia)) as (e & _ & _ & Hr).
  rewrite before_attempt_S.
  pose proof (Hsleep (func (before_attempt i w)).2) as Hs.
  unfold Retry.remaining_at in Hr. lra.
Qed.

(** With at most [m] backoff intervals of budget left the loop ends within
    [m + 1] attempts, whatever the attempts do. *)
Lemma loop_ends_within (d : Q) :
  (0 < d)%Q ->
  (forall w, time_time w <= time_time (func w).2)%Q ->
  (forall w, time_time w + d <= time_time (asyncio_sleep backoff w))%Q ->
  forall m start k w,
    (inject_Z max_seconds - (time_time w - start) <= inject_Z (Z.of_nat m) * d)%Q ->
    exists r tr w',
      loop (S m) start k w = (Some r, tr, w') /\ attempts tr <= S m.
Proof.
  intros Hd Hmono Hsleep.
  induction m as [|m IH]; intros start k w Hleft;
    pose proof (Hmono w) as Hw;
    destruct (func w) as [[v|e] w1] eqn:Hf; simpl in Hw.
  1, 3: rewrite (loop_return time_time asyncio_sleep func max_seconds self_rpc_url
                   _ start k _ _ _ Hf);
        do 3 eexists; (split; [reflexivity|]); unfold attempts; simpl; lia.
  all: destruct (is_transient e) eqn:Ht.
  2, 4: rewrite (loop_fatal time_time asyncio_sleep func max_seconds self_rpc_url
                   _ start k _ _ _ Hf Ht);
        do 3 eexists; (split; [reflexivity|]);
        destruct (isinstance e "Exception"); unfold attempts; simpl; lia.
  all: destruct (Qlt_le_dec 0 (remaining_at start w1)) as [Hr|Hr].
  2, 4: rewrite (loop_exhausted time_time asyncio_sleep func max_seconds self_rpc_url
                   _ start k _ _ _ Hf Ht Hr);
        do 3 eexists; (split; [reflexivity|]); unfold attempts; simpl; lia.
  - exfalso. unfold Retry.remaining_at in Hr.
    change (inject_Z (Z.of_nat 0)) with 0%Q in Hleft. lra.
  - rewrite (loop_retry time_time asyncio_sleep func max_seconds self_rpc_url
               _ start k _ _ _ Hf Ht Hr).
    pose proof (Hsleep w1) as Hs.
    destruct (IH start (S k) (asyncio_sleep backoff w1)) as (r & tr & w3 & Hrun & Hatt).
    { rewrite Nat2Z.inj_succ in Hleft. unfold Z.succ in Hleft.
      rewrite inject_Z_plus in Hleft. change (inject_Z 1) with 1%Q in Hleft. lra. }
    rewrite Hrun. do 3 eexists. split; [reflexivity|].
    unfold attempts in *. simpl. lia.
Qed.

(** X5. The wrapper always ends: when attempts do not turn the clock back
    and a backoff sleep lasts at least [d > 0] seconds, every call returns
    or raises after at most ceiling(max_seconds / d) + 1 attempts, whatever
    the unit of work does. *)
Theorem wrapper_terminates (d : Q) (w : W) :
  (0 < d)%Q ->
  (forall w0, time_time w0 <= time_time (func w0).2)%Q ->
  (forall w0, time_time w0 + d <= time_time (asyncio_sleep backoff w0))%Q ->
  exists r tr w',
    (forall fuel, S (Z.to_nat (Qceiling (inject_Z max_seconds / d))) <= fuel ->
       wrapper fuel w = (Some r, tr, w'))
    /\ attempts tr <= S (Z.to_nat (Qceiling (inject_Z max_seconds / d))).
Proof.
  intros Hd Hmono Hsleep.
  set (x := (inject_Z max_seconds / d)%Q).
  set (N := Z.to_nat (Qceiling x)).
  assert (Hxd : (x * d == inject_Z max_seconds)%Q).
  { unfold x. field. intros H0. rewrite H0 in Hd. exact (Qlt_irrefl _ Hd). }
  assert (HN : (x <= inject_Z (Z.of_nat N))%Q).
  { eapply Qle_trans; [apply Qle_ceiling|]. rewrite <- Zle_Qle. unfold N. lia. }
  assert (HNd : (x * d <= inject_Z (Z.of_nat N) * d)%Q).
  { apply Qmult_le_r; assumption. }
  destruct (loop_ends_within d Hd Hmono Hsleep N (time_time w) 1 w)
    as (r & tr & w' & Hrun & Hatt).
  { rewrite Hxd in HNd. lra. }
  exists r, tr, w'. split; [|exact Hatt].
  intros fuel Hfuel.
  exact (loop_fuel_mono time_time asyncio_sleep func max_seconds self_rpc_url
           _ _ _ _ _ _ _ _ Hrun Hfuel).
Qed.

(** X6. Time is the only bound: with budget left and a clock that stands
    still, a unit of work that keeps raising transient errors is retried
    as often as there is fuel, and the wrapper never gives up. *)
Theorem frozen_clock_never_gives_up (w : W) :
  (0 < max_seconds)%Z ->
  (forall w0, exists e, (func w0).1 = Raise e /\ is_transient e = true) ->
  (forall w0, time_time (func w0).2 == time_time w0)%Q ->
  (forall w0, time_time (asyncio_sleep backoff w0) == time_time w0)%Q ->
  forall fuel,
    (wrapper fuel w).1.1 = None /\ attempts (wrapper fuel w).1.2 = fuel.
Proof.
  intros HB Hfail Hinst Hsleep fuel.
  assert (HBq : (0 < inject_Z max_seconds)%Q).
  { change 0%Q with (inject_Z 0). rewrite <- Zlt_Qlt. exact HB. }
  unfold Retry.wrapper.
  assert (Hstart : (time_time w == time_time w)%Q) by reflexivity.
  revert Hstart. generalize (time_time w) at 1 3 4 as start. generalize 1 as k.
  revert w. induction fuel as [|fuel IH]; intros w k start Hstart; [split; reflexivity|].
  simpl. destruct (Hfail w) as (e & He & Ht). pose proof (Hinst w) as Hw.
  destruct (func w) as [o w1]. simpl in He, Hw. subst o. rewrite Ht.
  assert (Hb : Qle_bool (inject_Z max_seconds - (time_time w1 - start)) 0 = false).
  { destruct (Qle_bool _ 0) eqn:E; [|reflexivity].
    apply Qle_bool_iff in E. lra. }
  rewrite Hb.
  specialize (IH (asyncio_sleep backoff w1) (S k) start).
  destruct (Retry.loop _ _ _ _ _ fuel start (S k) _) as [[r1 tr1] w3].
  simpl in *. destruct IH as [IHr IHa].
  { rewrite Hsleep, Hw. exact Hstart. }
  split; [exact IHr|]. unfold attempts in *. simpl. rewrite IHa. reflexivity.
Qed.

(** A unit of work that always raises a transient error, on a clock where
    attempts take no time and a backoff sleep lasts one second, with a
    budget of [N] seconds: [N] retried attempts and one more that ends the
    call. *)
Lemma always_transient_exact (N : nat) (w : W) :
  max_seconds = Z.of_nat N ->
  (forall w0, exists e, (func w0).1 = Raise e /\ is_transient e = true) ->
  (forall w0, time_time (func w0).2 == time_time w0)%Q ->
  (forall w0, time_time (asyncio_sleep backoff w0) == time_time w0 + 1)%Q ->
  exists e tr w',
    func (before_attempt N w) = (Raise e, w')
    /\ retried_upto N (time_time w) w
    /\ (forall fuel, S N <= fuel -> wrapper fuel w = (Some (Raise e), tr, w'))
    /\ attempts tr = S N /\ sleeps tr = N.
Proof.
  intros HB Hfail Hinst Hsleep.
  pose proof (clock_before_attempt time_time asyncio_sleep func 1 Hinst Hsleep) as Hclock.
  assert (Hrem : forall j,
            (remaining_at (time_time w) (func (before_attempt j w)).2
             == inject_Z (Z.of_nat N) - inject_Z (Z.of_nat j))%Q).
  { intros j. unfold Retry.remaining_at. rewrite Hinst, Hclock, HB. ring. }
  assert (Hpre : retried_upto N (time_time w) w).
  { intros j Hj. destruct (Hfail (before_attempt j w)) as (e & He & Ht).
    exists e. split; [exact He|]. split; [exact Ht|]. rewrite Hrem.
    assert (Hjq : (inject_Z (Z.of_nat j) < inject_Z (Z.of_nat N))%Q)
      by (rewrite <- Zlt_Qlt; lia).
    lra. }
  destruct (Hfail (before_attempt N w)) as (e & He & Ht).
  destruct (func (before_attempt N w)) as [o w1] eqn:Hf.
  cbn [fst] in He. subst o.
  assert (Hex : (remaining_at (time_time w) w1 <= 0)%Q).
  { pose proof (Hrem N) as HrN. rewrite Hf in HrN. cbn [snd] in HrN.
    rewrite HrN. lra. }
  destruct (loop_runs time_time asyncio_sleep func max_seconds self_rpc_url
              N (time_time w) 1 w 1 Hpre) as (pre & Ha & Hs & _ & Hrun).
  rewrite (loop_exhausted time_time asyncio_sleep func max_seconds self_rpc_url
             0 _ _ _ _ _ Hf Ht Hex) in Hrun.
  cbn [fst snd] in Hrun.
  exists e. do 2 eexists.
  split; [reflexivity|]. split; [exact Hpre|]. split; [|split].
  - intros fuel Hfuel.
    apply (loop_fuel_mono time_time asyncio_sleep func max_seconds self_rpc_url (N + 1));
      [exact Hrun | lia].
  - rewrite attempts_app, Ha. unfold attempts. cbn. lia.
  - unfold sleeps in *. rewrite List.filter_app, length_app, Hs. cbn. lia.
Qed.

End RetryRuns.

(** * The decorated methods *)

Section MethodFacts.

Import Retry.

Context {W : Type}.
Variable time_time : W -> Q.
Variable asyncio_sleep : Q -> W -> W.
Variable is_connected : W -> Outcome bool * W.
Variable eth_block_number : W -> Outcome Z * W.
Variable self_rpc_url : string.

Local Abbreviation mtime := (method_time time_time).
Local Abbreviation msleep := (method_sleep asyncio_sleep).
Local Abbreviation ec_body := (ensure_connection_body is_connected self_rpc_url).
Local Abbreviation lb_body := (get_latest_block_body eth_block_number self_rpc_url).
Local Abbreviation not_connected :=
  (ProviderConnectionError "is_connected() returned False").

(** Failed attempts of a body that logs nothing when it raises leave the
    log as it was. *)
Lemma retried_keeps_log {V} (body : W * list InfoRecord -> Outcome V * (W * list InfoRecord))
    (B : Z) :
  (forall s e s', body s = (Raise e, s') -> s'.2 = s.2) ->
  forall n start s,
    retried_upto mtime msleep body B n start s ->
    (before_attempt msleep body n s).2 = s.2.
Proof.
  intros Hkeep. induction n as [|n IH]; intros start s Hpre; [reflexivity|].
  simpl. destruct (Hpre 0 ltac:(lia)) as (e & He & _ & _). simpl in He.
  rewrite (IH start).
  - simpl. destruct (body s) as [o s1] eqn:Hb. simpl in He. subst o.
    exact (Hkeep _ _ _ Hb).
  - intros j Hj. exact (Hpre (S j) ltac:(lia)).
Qed.

Lemma ec_body_raise s e s' : ec_body s = (Raise e, s') -> s'.2 = s.2.
Proof.
  unfold ensure_connection_body.
  destruct (is_connected s.1) as [[[|]|e0] w1]; simpl; intros H;
    try discriminate; injection H as <- <-; reflexivity.
Qed.

Lemma lb_body_raise s e s' : lb_body s = (Raise e, s') -> s'.2 = s.2.
Proof.
  unfold get_latest_block_body.
  destruct (eth_block_number s.1) as [[b|e0] w1]; simpl; intros H;
    try discriminate; injection H as <- <-; reflexivity.
Qed.

(** X7. [ensure_connection] never answers False: a finished call returns
    True, having logged "Connection OK" once and nothing else, or it raises
    and has logged nothing. *)
Theorem ensure_connection_true_or_raises (fuel : nat) (s : W * list InfoRecord)
    (r : Outcome bool) (tr : list (Event bool)) (s' : W * list InfoRecord) :
  ensure_connection time_time asyncio_sleep is_connected self_rpc_url fuel s
    = (Some r, tr, s') ->
  match r with
  | Return ok => ok = true /\ s'.2 = s.2 ++ [ConnectionOK self_rpc_url]
  | Raise e => s'.2 = s.2
  end.
Proof.
  intros Hrun.
  destruct (loop_last_attempt _ _ _ _ _ _ _ _ _ _ _ _ Hrun)
    as (n & _ & _ & _ & Hpre & Hlast).
  pose proof (retried_keeps_log ec_body 30 ec_body_raise n _ s Hpre) as Hlog.
  destruct (before_attempt msleep ec_body n s) as [wn lgn]. simpl in Hlog. subst lgn.
  destruct r as [ok|e].
  - unfold ensure_connection_body in Hlast. simpl in Hlast.
    destruct (is_connected wn) as [[[|]|e0] w1]; simpl in Hlast; try discriminate.
    injection Hlast as <- <-. split; reflexivity.
  - exact (ec_body_raise _ _ _ Hlast).
Qed.

(** X8. [get_latest_block] hands on the block number of its last attempt
    unchanged, and logs that number once; when it raises it has logged
    nothing. *)
Theorem get_latest_block_logs_result (fuel : nat) (s : W * list InfoRecord)
    (r : Outcome Z) (tr : list (Event Z)) (s' : W * list InfoRecord) :
  get_latest_block time_time asyncio_sleep eth_block_number self_rpc_url fuel s
    = (Some r, tr, s') ->
  exists n,
    attempts tr = S n
    /\ (eth_block_number (before_attempt msleep lb_body n s).1).1 = r
    /\ match r with
       | Return block => s'.2 = s.2 ++ [LatestBlock self_rpc_url block]
       | Raise e => s'.2 = s.2
       end.
Proof.
  intros Hrun.
  destruct (loop_last_attempt _ _ _ _ _ _ _ _ _ _ _ _ Hrun)
    as (n & Ha & _ & _ & Hpre & Hlast).
  pose proof (retried_keeps_log lb_body 30 lb_body_raise n _ s Hpre) as Hlog.
  exists n. split; [exact Ha|].
  destruct (before_attempt msleep lb_body n s) as [wn lgn]. simpl in Hlog. subst lgn.
  unfold get_latest_block_body in Hlast. simpl in Hlast. simpl.
  destruct (eth_block_number wn) as [[b|e0] w1]; simpl in Hlast;
    injection Hlast as <- <-; split; reflexivity.
Qed.

(** X9. A node that keeps answering False: when the answers take no time
    and every backoff sleep lasts its one second, [ensure_connection] asks
    31 times, sleeps 30 times, and raises the ProviderConnectionError it
    made of the last answer, without a line in the info log. *)
Theorem ensure_connection_gives_up (s : W * list InfoRecord) :
  (forall w, (is_connected w).1 = Return false) ->
  (forall w, time_time (is_connected w).2 == time_time w)%Q ->
  (forall w, time_time (asyncio_sleep backoff w) == time_time w + 1)%Q ->
  exists tr s',
    (forall fuel, 31 <= fuel ->
       ensure_connection time_time asyncio_sleep is_connected self_rpc_url fuel s
         = (Some (Raise not_connected), tr, s'))
    /\ attempts tr = 31 /\ sleeps tr = 30 /\ s'.2 = s.2.
Proof.
  intros Hfalse Hinst Hsleep.
  assert (Hbody : forall s0, exists w1,
            ec_body s0 = (Raise not_connected, (w1, s0.2))
            /\ (time_time w1 == time_time s0.1)%Q).
  { intros s0. unfold ensure_connection_body.
    pose proof (Hfalse s0.1) as Hf. pose proof (Hinst s0.1) as Ht.
    destruct (is_connected s0.1) as [o w1]. cbn [fst snd] in Hf, Ht. subst o.
    exists w1. split; [reflexivity | exact Ht]. }
  destruct (always_transient_exact mtime msleep ec_body 30 self_rpc_url 30 s)
    as (e & tr & s' & Hlast & Hpre & Hrun & Ha & Hs).
  - reflexivity.
  - intros s0. destruct (Hbody s0) as (w1 & -> & _).
    exists not_connected. split; reflexivity.
  - intros s0. destruct (Hbody s0) as (w1 & -> & Ht). exact Ht.
  - intros s0. apply Hsleep.
  - pose proof (retried_keeps_log ec_body 30 ec_body_raise 30 _ s Hpre) as Hlog.
    revert Hlast Hlog.
    generalize (before_attempt msleep ec_body 30 s) as sN.
    intros sN Hlast Hlog.
    destruct (Hbody sN) as (w1 & Hb & _).
    rewrite Hb in Hlast.
    assert (He : e = not_connected) by congruence.
    assert (Hs' : s' = (w1, sN.2)) by congruence.
    subst e s'.
    exists tr. eexists. split; [exact Hrun|]. split; [exact Ha|]. split; [exact Hs|].
    exact Hlog.
Qed.

End MethodFacts.

Section RunWitnesses.

Import Retry.

Lemma wrapper_result_is_last_attempt_witness :
  exists n,
    attempts (sim_wrapper fails_twice 30 10).1.2 = S n
    /\ sleeps (sim_wrapper fails_twice 30 10).1.2 = n
    /\ last_call (sim_wrapper fails_twice 30 10).1.2 = Some (Return 42%Z)
    /\ sim_func fails_twice (before_attempt sim_sleep (sim_func fails_twice) n sim0)
       = (Return 42%Z, mkSim 2 3)
    /\ forall j, j < n ->
         exists e,
           (sim_func fails_twice (before_attempt sim_sleep (sim_func fails_twice) j sim0)).1
             = Raise e
           /\ is_transient e = true
           /\ (0 < remaining_at sim_time 30 (sim_time sim0)
                     (sim_func fails_twice
                        (before_attempt sim_sleep (sim_func fails_twice) j sim0)).2)%Q.
Proof.
  exact (wrapper_result_is_last_attempt sim_time sim_sleep (sim_func fails_twice) 30 node
           10 sim0 (Return 42%Z) (sim_wrapper fails_twice 30 10).1.2 (mkSim 2 3) eq_refl).
Defined.

Lemma no_budget_no_retry_witness :
  exists tr,
    sim_wrapper fails_twice 0 1 = (Some (Raise refused), tr, mkSim 0 1)
    /\ attempts tr = 1 /\ sleeps tr = 0.
Proof.
  exact (no_budget_no_retry sim_time sim_sleep (sim_func fails_twice) 0 node 0 sim0
           (Z.le_refl 0) (Qle_refl 0)).
Defined.

Lemma attempts_start_within_budget_witness :
  (sim_time (before_attempt sim_sleep (sim_func always_refused) 3 sim0) - sim_time sim0
   < inject_Z 3 + 1)%Q.
Proof.
  refine (attempts_start_within_budget sim_time sim_sleep (sim_func always_refused) 3 node
            1 10 sim0 (Raise refused) (sim_wrapper always_refused 3 10).1.2 (mkSim 3 4)
            (fun w0 => Qle_refl _) eq_refl 3 _).
  vm_compute. split; lia.
Defined.

Lemma wrapper_terminates_witness :
  exists r tr w',
    (forall fuel, S (Z.to_nat (Qceiling (inject_Z 3 / 1))) <= fuel ->
       sim_wrapper fails_twice 3 fuel = (Some r, tr, w'))
    /\ attempts tr <= S (Z.to_nat (Qceiling (inject_Z 3 / 1))).
Proof.
  exact (wrapper_terminates sim_time sim_sleep (sim_func fails_twice) 3 node 1 sim0
           eq_refl (fun w0 => Qle_refl _) (fun w0 => Qle_refl _)).
Defined.

Lemma frozen_clock_never_gives_up_witness :
  (wrapper sim_time frozen_sleep (sim_func always_refused) 3 node 7 sim0).1.1 = None
  /\ attempts (wrapper sim_time frozen_sleep (sim_func always_refused) 3 node 7 sim0).1.2
     = 7.
Proof.
  exact (frozen_clock_never_gives_up sim_time frozen_sleep (sim_func always_refused) 3 node
           sim0 eq_refl
           (fun w0 => ex_intro _ refused (conj eq_refl eq_refl))
           (fun w0 => Qeq_refl _) (fun w0 => Qeq_refl _) 7).
Defined.

End RunWitnesses.

Section MethodWitnesses.

Import Retry.

Lemma ensure_connection_true_or_raises_witness :
  true = true
  /\ (mkSim 2 3, [ConnectionOK node]).2 = (sim0, @nil InfoRecord).2 ++ [ConnectionOK node].
Proof.
  exact (ensure_connection_true_or_raises sim_time sim_sleep (sim_call down_then_up) node
           10 (sim0, []) (Return true)
           (ensure_connection sim_time sim_sleep (sim_call down_then_up) node 10
              (sim0, [])).1.2
           (mkSim 2 3, [ConnectionOK node]) eq_refl).
Defined.

Lemma get_latest_block_logs_result_witness :
  exists n,
    attempts (get_latest_block sim_time sim_sleep (sim_call block_late) node 10
                (sim0, [])).1.2 = S n
    /\ (sim_call block_late
         (before_attempt (method_sleep sim_sleep)
            (get_latest_block_body (sim_call block_late) node) n (sim0, [])).1).1
       = Return 1234%Z
    /\ (mkSim 1 2, [LatestBlock node 1234]).2
       = (sim0, @nil InfoRecord).2 ++ [LatestBlock node 1234].
Proof.
  exact (get_latest_block_logs_result sim_time sim_sleep (sim_call block_late) node
           10 (sim0, []) (Return 1234%Z)
           (get_latest_block sim_time sim_sleep (sim_call block_late) node 10
              (sim0, [])).1.2
           (mkSim 1 2, [LatestBlock node 1234]) eq_refl).
Defined.

Lemma ensure_connection_gives_up_witness :
  exists tr s',
    (forall fuel, 31 <= fuel ->
       ensure_connection sim_time sim_sleep (sim_call always_down) node fuel (sim0, [])
         = (Some (Raise (ProviderConnectionError "is_connected() returned False")), tr, s'))
    /\ attempts tr = 31 /\ sleeps tr = 30 /\ s'.2 = (sim0, @nil InfoRecord).2.
Proof.
  exact (ensure_connection_gives_up sim_time sim_sleep (sim_call always_down) node
           (sim0, [])
           (fun w => eq_refl) (fun w => Qeq_refl _) (fun w => Qeq_refl _)).
Defined.

End MethodWitnesses.

(** * Further properties of the registry *)

Section RegistryFrame.

Import Registry.

Variable web3_error : nat -> string -> Z -> option PyExc.

Lemma lookup_snoc_old {A} (l : list A) (x a : A) (i : nat) :
  l !! i = Some a -> (l ++ [x]) !! i = Some a.
Proof. intros H. apply lookup_app_l_Some. exact H. Qed.

Lemma lookup_snoc_new {A} (l : list A) (x : A) :
  (l ++ [x]) !! length l = Some x.
Proof. rewrite lookup_app_r by lia. rewrite Nat.sub_diag. reflexivity. Qed.

(** What one call leaves alone and what it adds. *)
Lemma get_instance_frame st url t r st' :
  _lock st = false ->
  get_instance web3_error url t st = (r, st') ->
  (∀ h a, heap st !! h = Some a -> heap st' !! h = Some a)
  ∧ (∀ c x, clients st !! c = Some x -> clients st' !! c = Some x)
  ∧ (∀ u, u ≠ url -> _instances st' !! u = _instances st !! u)
  ∧ (∀ e, r = Done (Raise e) -> _instances st' = _instances st)
  ∧ (∀ h, r = Done (Return h) ->
       _instances st' !! url = Some h
       ∧ (_instances st !! url = None ->
          heap st' !! h = Some (mkAdapter (Some url) (Some t) (Some (length (clients st))))
          ∧ clients st' !! length (clients st) = Some (mkClient url t true)))
  ∧ (∀ u, ctor_calls_for u st' + clients_for u st =
          ctor_calls_for u st + clients_for u st'
          + match r with
            | Done (Raise _) => if decide (url = u) then 1 else 0
            | _ => 0
            end).
Proof.
  intros Hl Hrun.
  destruct (_instances st !! url) as [h|] eqn:Hi.
  - rewrite (get_instance_cached web3_error st url t h Hl Hi) in Hrun.
    injection Hrun as <- <-. simpl.
    split; [|split; [|split; [|split; [|split]]]].
    + auto.
    + auto.
    + auto.
    + auto.
    + intros h' [= <-]. split; [exact Hi | discriminate].
    + intros u. unfold ctor_calls_for, clients_for. simpl. lia.
  - destruct (web3_error (length (ctor_calls st)) url t) as [e|] eqn:Hw.
    + rewrite (get_instance_failed web3_error st url t e Hl Hi Hw) in Hrun.
      injection Hrun as <- <-. simpl.
      split; [|split; [|split; [|split; [|split]]]].
      * intros h a Ha. apply lookup_snoc_old. exact Ha.
      * auto.
      * auto.
      * auto.
      * intros h [=].
      * intros u. unfold ctor_calls_for, clients_for. simpl.
        rewrite filter_app, length_app, filter_cons, filter_nil. simpl.
        destruct (decide (url = u)); simpl; lia.
    + rewrite (get_instance_built web3_error st url t Hl Hi Hw) in Hrun.
      injection Hrun as <- <-. simpl.
      split; [|split; [|split; [|split; [|split]]]].
      * intros h a Ha. apply lookup_snoc_old. exact Ha.
      * intros c x Hc. apply lookup_snoc_old. exact Hc.
      * intros u Hu. apply lookup_insert_ne. congruence.
      * intros e [=].
      * intros h [= <-]. split; [apply lookup_insert_eq|].
        intros _. split; apply lookup_snoc_new.
      * intros u. unfold ctor_calls_for, clients_for. simpl.
        rewrite !filter_app, !length_app, !filter_cons, !filter_nil. simpl.
        destruct (decide (url = u)); simpl; lia.
Qed.

Lemma get_instance_well_formed st url t r st' :
  _lock st = false ->
  well_formed st ->
  get_instance web3_error url t st = (r, st') ->
  well_formed st'.
Proof.
  intros Hl Hwf Hrun.
  destruct (_instances st !! url) as [h|] eqn:Hi.
  - rewrite (get_instance_cached web3_error st url t h Hl Hi) in Hrun.
    injection Hrun as <- <-. exact Hwf.
  - destruct (web3_error (length (ctor_calls st)) url t) as [e|] eqn:Hw.
    + rewrite (get_instance_failed web3_error st url t e Hl Hi Hw) in Hrun.
      injection Hrun as <- <-. intros u h Hu. simpl in *.
      destruct (Hwf u h Hu) as (t0 & c & Hh & Hc).
      exists t0, c. split; [apply lookup_snoc_old; exact Hh | exact Hc].
    + rewrite (get_instance_built web3_error st url t Hl Hi Hw) in Hrun.
      injection Hrun as <- <-. intros u h Hu. simpl in *.
      destruct (decide (url = u)) as [->|Hne].
      * rewrite lookup_insert_eq in Hu. injection Hu as <-.
        exists t, (length (clients st)). split; apply lookup_snoc_new.
      * rewrite lookup_insert_ne in Hu by exact Hne.
        destruct (Hwf u h Hu) as (t0 & c & Hh & Hc).
        exists t0, c. split; apply lookup_snoc_old; assumption.
Qed.

Lemma init_well_formed : well_formed init_state.
Proof. intros u h Hu. discriminate. Qed.

(** A sequence of calls keeps the handles well formed and never changes an
    adapter or a client that exists. *)
Lemma run_calls_well_formed calls : ∀ st,
  consistent st -> well_formed st ->
  well_formed (run_calls web3_error calls st).2
  ∧ (∀ h a, heap st !! h = Some a -> heap (run_calls web3_error calls st).2 !! h = Some a)
  ∧ (∀ c x, clients st !! c = Some x ->
       clients (run_calls web3_error calls st).2 !! c = Some x).
Proof.
  induction calls as [|[url t] rest IH]; intros st Hst Hwf; [simpl; auto|].
  simpl.
  destruct (get_instance web3_error url t st) as [r st1] eqn:Hget.
  destruct (get_instance_inv web3_error st url t r st1 Hst Hget) as (Hc1 & _).
  destruct (get_instance_frame st url t r st1 (proj1 Hst) Hget) as (Hh & Hc & _).
  pose proof (get_instance_well_formed st url t r st1 (proj1 Hst) Hwf Hget) as Hwf1.
  destruct (IH st1 Hc1 Hwf1) as (Hwf2 & Hh2 & Hcl2).
  destruct (run_calls web3_error rest st1) as [rs st2]. simpl in *.
  split; [exact Hwf2|]. split; auto.
Qed.

(** X10. Different rpc_urls never share a handle: two calls of a sequence
    that return handles for different urls return different handles. *)
Theorem distinct_urls_distinct_handles (calls : list (string * Z)) :
  ∀ i j ui uj ti tj hi hj,
    calls !! i = Some (ui, ti) -> calls !! j = Some (uj, tj) ->
    (run_calls web3_error calls init_state).1 !! i = Some (Done (Return hi)) ->
    (run_calls web3_error calls init_state).1 !! j = Some (Done (Return hj)) ->
    ui ≠ uj -> hi ≠ hj.
Proof.
  intros i j ui uj ti tj hi hj Hi Hj Hri Hrj Hne Heq. subst hj.
  destruct (run_calls_inv web3_error calls init_state init_consistent)
    as (_ & _ & Hret & _).
  destruct (run_calls_well_formed calls init_state init_consistent init_well_formed)
    as (Hwf & _).
  destruct (Hwf ui hi (Hret i ui ti hi Hi Hri)) as (t1 & c1 & H1 & _).
  destruct (Hwf uj hi (Hret j uj tj hi Hj Hrj)) as (t2 & c2 & H2 & _).
  congruence.
Qed.

(** The handle of the first call for a url that returns carries that call's
    timeout, whatever follows. *)
Lemma run_calls_first_writer calls : ∀ st i u t h,
  consistent st -> well_formed st ->
  _instances st !! u = None ->
  calls !! i = Some (u, t) ->
  (run_calls web3_error calls st).1 !! i = Some (Done (Return h)) ->
  (∀ j tj, j < i -> calls !! j = Some (u, tj) ->
     ∃ e, (run_calls web3_error calls st).1 !! j = Some (Done (Raise e))) ->
  ∃ c, heap (run_calls web3_error calls st).2 !! h
         = Some (mkAdapter (Some u) (Some t) (Some c))
       ∧ clients (run_calls web3_error calls st).2 !! c = Some (mkClient u t true).
Proof.
  induction calls as [|[url t0] rest IH]; intros st i u t h Hst Hwf Hnone Hcall Hres Hearlier;
    [discriminate|].
  simpl in Hres, Hearlier |- *.
  destruct (get_instance web3_error url t0 st) as [r st1] eqn:Hget.
  destruct (get_instance_inv web3_error st url t0 r st1 Hst Hget) as (Hc1 & _).
  destruct (get_instance_frame st url t0 r st1 (proj1 Hst) Hget)
    as (_ & _ & Hother & Hraise & Hnew & _).
  pose proof (get_instance_well_formed st url t0 r st1 (proj1 Hst) Hwf Hget) as Hwf1.
  pose proof (run_calls_well_formed rest st1 Hc1 Hwf1) as (_ & Hh2 & Hcl2).
  specialize (IH st1).
  destruct (run_calls web3_error rest st1) as [rs st2]. simpl in *.
  destruct i as [|i]; simpl in *.
  - injection Hcall as -> ->. injection Hres as ->.
    destruct (Hnew h eq_refl) as (_ & Hbuilt). destruct (Hbuilt Hnone) as (Hh & Hc).
    exists (length (clients st)). split; auto.
  - apply (IH i u t h Hc1 Hwf1); auto.
    + destruct (decide (u = url)) as [->|Hne].
      * destruct (Hearlier 0 t0 ltac:(lia) eq_refl) as (e & He). simpl in He.
        injection He as ->. rewrite (Hraise e eq_refl). exact Hnone.
      * rewrite (Hother u Hne). exact Hnone.
    + intros j tj Hj Hcj. exact (Hearlier (S j) tj ltac:(lia) Hcj).
Qed.

(** X11. First writer wins for good: the handle that the first returning
    call for an rpc_url gets is an adapter with that url, that call's
    timeout and a client configured with both, and it is still so at the
    end of the sequence, whatever timeouts later calls pass. *)
Theorem handle_keeps_first_configuration (calls : list (string * Z)) (i : nat)
    (u : string) (t : Z) (h : nat) :
  calls !! i = Some (u, t) ->
  (run_calls web3_error calls init_state).1 !! i = Some (Done (Return h)) ->
  (∀ j tj, j < i -> calls !! j = Some (u, tj) ->
     ∃ e, (run_calls web3_error calls init_state).1 !! j = Some (Done (Raise e))) ->
  ∃ c, heap (run_calls web3_error calls init_state).2 !! h
         = Some (mkAdapter (Some u) (Some t) (Some c))
       ∧ clients (run_calls web3_error calls init_state).2 !! c
         = Some (mkClient u t true).
Proof.
  intros Hcall Hres Hearlier.
  exact (run_calls_first_writer calls init_state i u t h init_consistent
           init_well_formed eq_refl Hcall Hres Hearlier).
Qed.

Lemma run_calls_ctor_count calls : ∀ st u,
  consistent st ->
  ctor_calls_for u (run_calls web3_error calls st).2 + clients_for u st =
  ctor_calls_for u st + clients_for u (run_calls web3_error calls st).2
  + failures_for u calls (run_calls web3_error calls st).1.
Proof.
  induction calls as [|[url t] rest IH]; intros st u Hst; [simpl; lia|].
  simpl.
  destruct (get_instance web3_error url t st) as [r st1] eqn:Hget.
  destruct (get_instance_inv web3_error st url t r st1 Hst Hget) as (Hc1 & _).
  destruct (get_instance_frame st url t r st1 (proj1 Hst) Hget)
    as (_ & _ & _ & _ & _ & Hcount).
  specialize (IH st1 u Hc1). specialize (Hcount u).
  destruct (run_calls web3_error rest st1) as [rs st2]. simpl in *.
  destruct r as [[h|e]|]; simpl; lia.
Qed.

(** X12. Constructor calls are accounted for: at the end of a sequence the
    client constructor has been called for an rpc_url once for every call
    for it that raised, and once more if the url is registered. *)
Theorem constructor_calls_accounted (calls : list (string * Z)) (u : string) :
  ctor_calls_for u (run_calls web3_error calls init_state).2 =
  failures_for u calls (run_calls web3_error calls init_state).1
  + match _instances (run_calls web3_error calls init_state).2 !! u with
    | Some _ => 1
    | None => 0
    end.
Proof.
  pose proof (run_calls_ctor_count calls init_state u init_consistent) as Hcount.
  destruct (run_calls_inv web3_error calls init_state init_consistent)
    as ((_ & Hone) & _).
  rewrite <- (Hone u).
  change (ctor_calls_for u init_state) with 0 in Hcount.
  change (clients_for u init_state) with 0 in Hcount. lia.
Qed.

Lemma get_instance_done st url t r st' :
  _lock st = false ->
  get_instance web3_error url t st = (r, st') ->
  ∃ o, r = Done o.
Proof.
  intros Hl Hrun.
  destruct (_instances st !! url) as [h|] eqn:Hi.
  - rewrite (get_instance_cached web3_error st url t h Hl Hi) in Hrun.
    injection Hrun as <- _. eauto.
  - destruct (web3_error (length (ctor_calls st)) url t) as [e|] eqn:Hw.
    + rewrite (get_instance_failed web3_error st url t e Hl Hi Hw) in Hrun.
      injection Hrun as <- _. eauto.
    + rewrite (get_instance_built web3_error st url t Hl Hi Hw) in Hrun.
      injection Hrun as <- _. eauto.
Qed.

Lemma run_calls_registered calls : ∀ st u,
  consistent st ->
  is_Some (_instances (run_calls web3_error calls st).2 !! u) ->
  is_Some (_instances st !! u)
  ∨ ∃ i t h, calls !! i = Some (u, t)
             ∧ (run_calls web3_error calls st).1 !! i = Some (Done (Return h)).
Proof.
  induction calls as [|[url t] rest IH]; intros st u Hst Hreg; [left; exact Hreg|].
  simpl in Hreg |- *.
  destruct (get_instance web3_error url t st) as [r st1] eqn:Hget.
  destruct (get_instance_inv web3_error st url t r st1 Hst Hget) as (Hc1 & _).
  destruct (get_instance_frame st url t r st1 (proj1 Hst) Hget)
    as (_ & _ & Hother & Hraise & _).
  destruct (get_instance_done st url t r st1 (proj1 Hst) Hget) as (o & ->).
  specialize (IH st1 u Hc1).
  destruct (run_calls web3_error rest st1) as [rs st2]. simpl in *.
  destruct (IH Hreg) as [H1|(i & t1 & h & Hcall & Hres)].
  - destruct (decide (u = url)) as [->|Hne].
    + destruct o as [h|e].
      * right. exists 0, t, h. split; reflexivity.
      * left. rewrite (Hraise e eq_refl) in H1. exact H1.
    + left. rewrite (Hother u Hne) in H1. exact H1.
  - right. exists (S i), t1, h. split; assumption.
Qed.

(** X13. A url is registered at the end of a sequence exactly when some
    call for it returned a handle: a failed call registers nothing, and
    nothing is ever registered but by a call that returns. *)
Theorem registered_iff_returned (calls : list (string * Z)) (u : string) :
  is_Some (_instances (run_calls web3_error calls init_state).2 !! u)
  ↔ ∃ i t h, calls !! i = Some (u, t)
             ∧ (run_calls web3_error calls init_state).1 !! i = Some (Done (Return h)).
Proof.
  split.
  - intros Hreg.
    destruct (run_calls_registered calls init_state u init_consistent Hreg)
      as [[h Hnone]|Hex]; [discriminate | exact Hex].
  - intros (i & t & h & Hcall & Hres).
    destruct (run_calls_inv web3_error calls init_state init_consistent)
      as (_ & _ & Hret & _).
    exists h. exact (Hret i u t h Hcall Hres).
Qed.

(** X14. The flag is all there is to the guard: a direct call of the
    constructor with [_internal=True] builds an adapter and a client of
    its own and returns a new reference, without a look at the registry and
    without an entry in it; no registered handle is this object, and the
    url now has one client more. *)
Theorem direct_construction_bypasses_registry (st : State) (url : string) (t : Z) :
  web3_error (length (ctor_calls st)) url t = None ->
  ∃ st',
    AsyncWeb3Adapter web3_error url t true st = (Done (Return (length (heap st))), st')
    ∧ _instances st' = _instances st
    ∧ heap st' = heap st ++ [mkAdapter (Some url) (Some t) (Some (length (clients st)))]
    ∧ clients st' = clients st ++ [mkClient url t true]
    ∧ clients_for url st' = S (clients_for url st)
    ∧ (well_formed st -> ∀ u h, _instances st' !! u = Some h -> h ≠ length (heap st)).
Proof.
  intros Hw. destruct st as [insts lk hp cl cc lg]; simpl in *.
  eexists. split.
  - unfold AsyncWeb3Adapter, __init__, _create_client, new_AsyncWeb3, getattr,
      setattr, logger_info, modify, alloc, bind, ret; simpl.
    repeat (progress (rewrite ?alter_last, ?lookup_last, ?Hw; simpl)).
    reflexivity.
  - simpl. do 3 (split; [reflexivity|]). split.
    + unfold clients_for. simpl.
      rewrite filter_app, length_app, filter_cons, filter_nil. simpl.
      destruct (decide (url = url)); [simpl; lia | congruence].
    + intros Hwf u h Hu Heq. destruct (Hwf u h Hu) as (t0 & c & Hh & _).
      simpl in Hh. apply lookup_lt_Some in Hh. lia.
Qed.

End RegistryFrame.

Section RegistryWitnesses.

Import Registry.

Lemma distinct_urls_distinct_handles_witness : 0 ≠ 1.
Proof.
  exact (distinct_urls_distinct_handles never_fails demo_calls
           0 1 "http://a" "http://b" 10%Z 5%Z 0 1 eq_refl eq_refl eq_refl eq_refl
           ltac:(discriminate)).
Defined.

Lemma first_call_raised :
  ∀ j tj, j < 1 -> same_url_calls !! j = Some ("http://a", tj) ->
    ∃ e, (run_calls fails_once same_url_calls init_state).1 !! j = Some (Done (Raise e)).
Proof.
  intros j tj Hj _. destruct j as [|j]; [eexists; reflexivity | lia].
Defined.

Lemma handle_keeps_first_configuration_witness :
  ∃ c, heap (run_calls fails_once same_url_calls init_state).2 !! 1
         = Some (mkAdapter (Some "http://a") (Some 5%Z) (Some c))
       ∧ clients (run_calls fails_once same_url_calls init_state).2 !! c
         = Some (mkClient "http://a" 5%Z true).
Proof.
  exact (handle_keeps_first_configuration fails_once same_url_calls 1 "http://a" 5%Z 1
           eq_refl eq_refl first_call_raised).
Defined.

Lemma direct_construction_bypasses_registry_witness :
  ∃ st',
    AsyncWeb3Adapter never_fails "http://a" 99 true registered_a
      = (Done (Return (length (heap registered_a))), st')
    ∧ _instances st' = _instances registered_a
    ∧ heap st' = heap registered_a
                 ++ [mkAdapter (Some "http://a") (Some 99%Z)
                       (Some (length (clients registered_a)))]
    ∧ clients st' = clients registered_a ++ [mkClient "http://a" 99 true]
    ∧ clients_for "http://a" st' = S (clients_for "http://a" registered_a)
    ∧ (well_formed registered_a ->
       ∀ u h, _instances st' !! u = Some h -> h ≠ length (heap registered_a)).
Proof.
  exact (direct_construction_bypasses_registry never_fails registered_a "http://a" 99
           eq_refl).
Defined.

End RegistryWitnesses.

(** * The page files and the translated document *)

Section DocxNames.

Import Docx.

Lemma split_on_cons sep s : exists field fields, split_on sep s = field :: fields.
Proof.
  induction s as [|c s IH]; simpl; [eauto|].
  destruct (Ascii.eqb c sep); [eauto|].
  destruct IH as (f & fs & ->). eauto.
Qed.

Lemma split_on_no_sep sep s : has_char sep s = false -> split_on sep s = [s].
Proof.
  induction s as [|c s IH]; simpl; [reflexivity|].
  intros H. apply orb_false_iff in H as [Hc Hs].
  rewrite Hc, (IH Hs). reflexivity.
Qed.

Lemma split_on_second sep s :
  split_on sep s !! 1 = None <-> has_char sep s = false.
Proof.
  induction s as [|c s IH]; simpl; [split; reflexivity|].
  destruct (Ascii.eqb c sep); simpl.
  - destruct (split_on_cons sep s) as (f & fs & ->). simpl. split; discriminate.
  - destruct (split_on_cons sep s) as (f & fs & Hs). rewrite Hs in *. simpl in *.
    exact IH.
Qed.

Lemma split_on_app sep p s :
  has_char sep p = false ->
  split_on sep (p +:+ String sep s) = p :: split_on sep s.
Proof.
  induction p as [|c p IH]; simpl; intros H.
  - rewrite Ascii.eqb_refl. reflexivity.
  - apply orb_false_iff in H as [Hc Hp]. rewrite Hc, (IH Hp). reflexivity.
Qed.

Lemma is_digit_cases c :
  is_digit c = true ->
  is_space c = false /\ Ascii.eqb c "_" = false
  /\ Ascii.eqb c "-" = false /\ Ascii.eqb c "+" = false.
Proof.
  destruct c as [[] [] [] [] [] [] [] []]; vm_compute; intros H;
    try discriminate; repeat split.
Qed.

Lemma digits_only_app s1 s2 :
  digits_only (s1 +:+ s2) = digits_only s1 && digits_only s2.
Proof.
  induction s1 as [|c s1 IH]; simpl; [reflexivity|].
  rewrite IH, andb_assoc. reflexivity.
Qed.

Lemma digits_only_zeros k : digits_only (zeros k) = true.
Proof. induction k as [|k IH]; simpl; [reflexivity | exact IH]. Qed.

Lemma digits_only_uint d : digits_only (NilEmpty.string_of_uint d) = true.
Proof. induction d; simpl; try reflexivity; exact IHd. Qed.

Lemma digits_only_nat n : digits_only (NilZero.string_of_uint (Nat.to_uint n)) = true.
Proof.
  unfold NilZero.string_of_uint.
  destruct (Nat.to_uint n) eqn:E; try reflexivity; rewrite <- E; apply digits_only_uint.
Qed.

Lemma digits_no_sep s : digits_only s = true -> has_char "_" s = false.
Proof.
  induction s as [|c s IH]; simpl; [reflexivity|].
  intros H. apply andb_true_iff in H as [Hc Hs].
  destruct (is_digit_cases c Hc) as (_ & -> & _). simpl. exact (IH Hs).
Qed.

Lemma digits_lstrip s : digits_only s = true -> lstrip s = s.
Proof.
  destruct s as [|c s]; simpl; [reflexivity|].
  intros H. apply andb_true_iff in H as [Hc _].
  destruct (is_digit_cases c Hc) as (-> & _). reflexivity.
Qed.

Lemma digits_rstrip s : digits_only s = true -> rstrip s = s.
Proof.
  induction s as [|c s IH]; simpl; [reflexivity|].
  intros H. apply andb_true_iff in H as [Hc Hs].
  rewrite (IH Hs). destruct (is_digit_cases c Hc) as (-> & _).
  destruct s; reflexivity.
Qed.

Lemma uint_of_zeros k s :
  NilEmpty.uint_of_string (zeros k +:+ s) = Nat.iter k D0 <$> NilEmpty.uint_of_string s.
Proof.
  induction k as [|k IH].
  - change (zeros 0 +:+ s) with s.
    destruct (NilEmpty.uint_of_string s); reflexivity.
  - change (zeros (S k) +:+ s) with (String "0" (zeros k +:+ s)).
    cbn [NilEmpty.uint_of_string]. rewrite IH.
    destruct (NilEmpty.uint_of_string s); reflexivity.
Qed.

Lemma of_uint_zeros k d : Nat.of_uint (Nat.iter k D0 d) = Nat.of_uint d.
Proof. induction k as [|k IH]; simpl; [reflexivity | exact IH]. Qed.

Lemma uint_of_nat_string n :
  exists d, NilEmpty.uint_of_string (NilZero.string_of_uint (Nat.to_uint n)) = Some d
            /\ Nat.of_uint d = n.
Proof.
  unfold NilZero.string_of_uint.
  pose proof (DecimalNat.Unsigned.of_to n) as Hn.
  destruct (Nat.to_uint n) eqn:E;
    [exists (D0 Nil); split; [reflexivity | exact Hn] | ..];
    (eexists; split; [apply NilEmpty.usu | exact Hn]).
Qed.

Lemma nat_string_nonempty n : NilZero.string_of_uint (Nat.to_uint n) <> EmptyString.
Proof.
  unfold NilZero.string_of_uint. destruct (Nat.to_uint n); discriminate.
Qed.

(** [int()] reads back what the format wrote. *)
Lemma int_of_format n : int_of_str (format_04d n) = Some (Z.of_nat n).
Proof.
  unfold int_of_str, format_04d.
  set (digits := NilZero.string_of_uint (Nat.to_uint n)).
  set (k := 4 - String.length digits).
  assert (Hd : digits_only (zeros k +:+ digits) = true).
  { rewrite digits_only_app, digits_only_zeros. apply digits_only_nat. }
  rewrite (digits_lstrip _ Hd), (digits_rstrip _ Hd).
  destruct (uint_of_nat_string n) as (d & Hu & Hof). fold digits in Hu.
  pose proof (uint_of_zeros k digits) as Hz. rewrite Hu in Hz. simpl in Hz.
  destruct (zeros k +:+ digits) as [|c s] eqn:E.
  - exfalso. destruct k; simpl in E; [|discriminate].
    exact (nat_string_nonempty n E).
  - simpl in Hd. apply andb_true_iff in Hd as [Hc _].
    destruct (is_digit_cases c Hc) as (_ & _ & -> & ->).
    unfold NilZero.uint_of_string. rewrite Hz. simpl.
    rewrite of_uint_zeros, Hof. reflexivity.
Qed.

Lemma page_number_of_page_stem (i : nat) :
  page_number_of_stem (page_stem i) = Return (Z.of_nat (i + 1)).
Proof.
  unfold page_number_of_stem, page_stem.
  change ("page_" +:+ format_04d (i + 1))
    with ("page" +:+ String "_" (format_04d (i + 1))).
  rewrite split_on_app by reflexivity.
  assert (Hd : digits_only (format_04d (i + 1)) = true).
  { unfold format_04d. rewrite digits_only_app, digits_only_zeros. apply digits_only_nat. }
  rewrite (split_on_no_sep _ _ (digits_no_sep _ Hd)). simpl.
  rewrite int_of_format. reflexivity.
Qed.

(** X15. The page number survives the file name: for every page index [i]
    of [split_pdf], the translator reads page number [i + 1] back from the
    stem of the file [split_pdf] wrote, also beyond 9999 pages. *)
Theorem page_number_round_trip (i : nat) :
  page_number_of_stem (page_stem i) = Return (Z.of_nat (i + 1)).
Proof. exact (page_number_of_page_stem i). Qed.

(** X16. A stem without an underscore has no second field: reading the page
    number raises IndexError exactly for the stems that contain no
    underscore, whatever else they are. *)
Theorem page_number_index_error (stem : string) :
  page_number_of_stem stem = Raise (IndexError "list index out of range")
  <-> has_char "_" stem = false.
Proof.
  unfold page_number_of_stem. rewrite <- split_on_second.
  destruct (split_on "_" stem !! 1) as [field|]; [|split; reflexivity].
  split; [|discriminate].
  destruct (int_of_str field); discriminate.
Qed.

(** X22. No two pages share a file: the names [split_pdf] gives to the
    pages are different for different pages, so no page file overwrites
    another. *)
Theorem page_stem_injective (i j : nat) : page_stem i = page_stem j -> i = j.
Proof.
  intros Heq. pose proof (page_number_of_page_stem i) as Hi.
  rewrite Heq, page_number_of_page_stem in Hi.
  injection Hi as Hi. lia.
Qed.

End DocxNames.

Section DocxBuild.

Import Docx.

Variable add_picture_error : string -> option PyExc.
Variable translate_page : string -> Z -> Outcome string.
Variable image_path : string -> string.








(** [insert_images] adds pictures and nothing else: the texts, and so the
    number of paragraphs, stay. *)
Lemma insert_images_texts (images : list ImageMeta) : forall paragraphs,
  text <$> (insert_images add_picture_error image_path images paragraphs).2
  = text <$> paragraphs.
Proof.
  induction images as [|img rest IH]; intros paragraphs; simpl; [reflexivity|].
  destruct (filename img) as [fname|]; [|reflexivity].
  destruct (paragraph_index img) as [p_idx|]; [|apply IH].
  destruct (p_idx <? Z.of_nat (length paragraphs))%Z; [|apply IH].
  destruct (py_index paragraphs p_idx) as [k|]; [|reflexivity].
  destruct (add_picture_error (image_path fname)); [reflexivity|].
  rewrite IH. clear IH. revert k. induction paragraphs as [|p ps IHp]; intros [|k]; simpl;
    try reflexivity. f_equal. apply IHp.
Qed.




(** X20. One stray file stops everything: if the pages directory holds a
    text file whose stem has no underscore, [main] raises before a document
    is built or a file written, whatever the translator does. *)
Theorem stray_file_aborts (files : list (string * string))
    (images : option (list ImageMeta)) (clean_docx : list Paragraph)
    (stem page_text : string) :
  (stem, page_text) ∈ files ->
  has_char "_" stem = false ->
  exists e,
    main add_picture_error translate_page image_path files images clean_docx
      = (Raise e, None).
Proof.
  intros Hin Hbad. unfold main, translate_pages_async.
  assert (Hraise : forall m0, exists e,
            translate_pages translate_page files m0 = Raise e).
  { induction files as [|[stem0 t0] rest IH]; intros m0; [inversion Hin|].
    simpl. destruct (page_number_of_stem stem0) as [k|e] eqn:Hnum; [|eauto].
    destruct (translate_page t0 k) as [v|e]; [|eauto].
    apply elem_of_cons in Hin as [Heq|Hin]; [|apply IH; exact Hin].
    exfalso. injection Heq as <- _.
    unfold page_number_of_stem in Hnum.
    rewrite (proj2 (split_on_second "_" stem) Hbad) in Hnum. discriminate. }
  destruct (Hraise ∅) as (e & ->). eauto.
Qed.

(** X21. What [insert_images] can do to the document: it changes no text and
    no paragraph count, whether it returns or raises; and entries that have
    a file name but no paragraph index (as the table and orphan images of
    the extractor) or an index at or beyond the number of paragraphs are
    passed over without a picture being opened. *)
Theorem insert_images_only_adds_pictures (images : list ImageMeta)
    (paragraphs : list Paragraph) :
  text <$> (insert_images add_picture_error image_path images paragraphs).2
    = text <$> paragraphs
  /\ length (insert_images add_picture_error image_path images paragraphs).2
     = length paragraphs
  /\ ((forall img, img ∈ images ->
         is_Some (filename img)
         /\ (paragraph_index img = None
             \/ exists p, paragraph_index img = Some p
                          /\ (Z.of_nat (length paragraphs) <= p)%Z)) ->
      insert_images add_picture_error image_path images paragraphs
        = (Return tt, paragraphs)).
Proof.
  pose proof (insert_images_texts images paragraphs) as Ht.
  split; [exact Ht|]. split.
  - rewrite <- (length_fmap text), Ht, length_fmap. reflexivity.
  - clear Ht. induction images as [|img rest IH]; intros Hskip; [reflexivity|].
    destruct (Hskip img ltac:(left)) as ([fname Hf] & Hidx).
    simpl. rewrite Hf.
    assert (Hrest : insert_images add_picture_error image_path rest paragraphs
                    = (Return tt, paragraphs)).
    { apply IH. intros img' Hin. apply Hskip. right. exact Hin. }
    destruct Hidx as [->|(p & -> & Hp)]; [exact Hrest|].
    destruct (Z.ltb_spec p (Z.of_nat (length paragraphs))); [lia | exact Hrest].
Qed.

End DocxBuild.

Section DocxWitnesses.

Import Docx.

Lemma page_stem_injective_witness : 3 = 3.
Proof. exact (page_stem_injective 3 3 eq_refl). Defined.



Lemma stray_file_aborts_witness :
  exists e,
    main pictures_open demo_translator demo_path stray_files (Some demo_images) demo_doc
      = (Raise e, None).
Proof.
  refine (stray_file_aborts pictures_open demo_translator demo_path stray_files
            (Some demo_images) demo_doc "notes" "to do" _ eq_refl).
  apply elem_of_cons. right. apply elem_of_cons. left. reflexivity.
Defined.

Lemma insert_images_only_adds_pictures_witness :
  insert_images pictures_open demo_path demo_images demo_doc = (Return tt, demo_doc).
Proof.
  refine (proj2 (proj2 (insert_images_only_adds_pictures pictures_open demo_path
                          demo_images demo_doc)) _).
  intros img Hin. apply elem_of_cons in Hin as [->|Hin].
  - split; [eexists; reflexivity | left; reflexivity].
  - apply elem_of_cons in Hin as [->|Hin]; [|inversion Hin].
    split; [eexists; reflexivity|]. right. exists 7%Z. split; [reflexivity|]. simpl. lia.
Defined.

End DocxWitnesses.
